(** * weatherapp: the query handler [WeatherApp.get_weather] of [main.py]

    A shallow embedding of the application controller's single operation.
    Python values are modelled dynamically (a parsed JSON body is an untyped
    tree, attribute and type errors are results), widget state is a record
    that is threaded through a small state-and-exception monad, and the
    outside world (module configuration, the [requests] library, Tk's image
    decoder, [repr]) is a record of oracles. *)

From Stdlib Require Import List String Ascii Bool NArith ZArith Lia.
From Stdlib Require Import DecimalString QArith.
Import ListNotations.

Local Set Warnings "-register-all".
Local Close Scope Q_scope.
Local Open Scope N_scope.
Local Open Scope list_scope.

(** ** Python strings *)

(** A Python [str] is a sequence of Unicode code points. *)
Definition char := N.
Definition str := list char.

(** An ASCII string literal of the source, as code points. *)
Definition lit (s : string) : str := map N_of_ascii (list_ascii_of_string s).

(** The degree sign U+00B0 of the temperature line. *)
Definition degree : str := [176].

Fixpoint str_eqb (a b : str) : bool :=
  match a, b with
  | [], [] => true
  | x :: a', y :: b' => N.eqb x y && str_eqb a' b'
  | _, _ => false
  end.

(** [bool(s)] for a string: non-empty. *)
Definition nonempty (s : str) : bool :=
  match s with [] => false | _ :: _ => true end.

(** [str.isspace] on one code point: the characters CPython's
    [_PyUnicode_IsWhitespace] accepts. *)
Definition isspace (c : char) : bool :=
  ((9 <=? c) && (c <=? 13)) || ((28 <=? c) && (c <=? 32))
  || (c =? 133) || (c =? 160) || (c =? 5760)
  || ((8192 <=? c) && (c <=? 8202))
  || (c =? 8232) || (c =? 8233) || (c =? 8239) || (c =? 8287) || (c =? 12288).

Fixpoint lstrip (s : str) : str :=
  match s with
  | [] => []
  | c :: s' => if isspace c then lstrip s' else s
  end.

Definition rstrip (s : str) : str := rev (lstrip (rev s)).

(** [s.strip()]: whitespace removed at both ends. *)
Definition strip (s : str) : str := rstrip (lstrip s).

(** [s.startswith(p)]. *)
Fixpoint startswith (s p : str) : bool :=
  match p, s with
  | [], _ => true
  | x :: p', y :: s' => N.eqb x y && startswith s' p'
  | _ :: _, [] => false
  end.

(** [sep.join(parts)] on strings. *)
Fixpoint join (sep : str) (parts : list str) : str :=
  match parts with
  | [] => []
  | [p] => p
  | p :: rest => p ++ sep ++ join sep rest
  end.

(** [base64.b64encode(bs).decode("ascii")]. *)
Definition b64_alphabet : str :=
  lit "ABCDEFGHIJKLMNOPQRSTUVWXYZabcdefghijklmnopqrstuvwxyz0123456789+/".

Definition b64_digit (n : N) : char := nth (N.to_nat (N.land n 63)) b64_alphabet 0.

Definition b64_pad : char := 61.

Fixpoint b64encode (bs : list N) : str :=
  match bs with
  | [] => []
  | [a] =>
      let n := N.shiftl a 16 in
      [b64_digit (N.shiftr n 18); b64_digit (N.shiftr n 12); b64_pad; b64_pad]
  | [a; b] =>
      let n := N.lor (N.shiftl a 16) (N.shiftl b 8) in
      [b64_digit (N.shiftr n 18); b64_digit (N.shiftr n 12);
       b64_digit (N.shiftr n 6); b64_pad]
  | a :: b :: c :: rest =>
      let n := N.lor (N.lor (N.shiftl a 16) (N.shiftl b 8)) c in
      b64_digit (N.shiftr n 18) :: b64_digit (N.shiftr n 12)
        :: b64_digit (N.shiftr n 6) :: b64_digit n :: b64encode rest
  end.

(** ** Parsed JSON, as [response.json()] returns it *)

(** [json.loads] yields [None], [bool], [int], [float], [str], [list] and
    [dict].  A float is kept as its IEEE-754 binary64 bit pattern. *)
Inductive json : Type :=
| JNull
| JBool (b : bool)
| JInt (z : Z)
| JFloat (bits : N)
| JStr (s : str)
| JArr (items : list json)
| JObj (members : list (str * json)).

(** Truth value of a Python object ([bool(v)]). *)
Definition truthy (v : json) : bool :=
  match v with
  | JNull => false
  | JBool b => b
  | JInt z => negb (Z.eqb z 0)
  | JFloat bits => negb (N.eqb (N.land bits (N.ones 63)) 0)
  | JStr s => nonempty s
  | JArr l => match l with [] => false | _ => true end
  | JObj d => match d with [] => false | _ => true end
  end.

(** [a or b]. *)
Definition py_or (a b : json) : json := if truthy a then a else b.

(** Lookup of a key in a dict. *)
Fixpoint assoc (k : str) (d : list (str * json)) : option json :=
  match d with
  | [] => None
  | (k', v) :: d' => if str_eqb k k' then Some v else assoc k d'
  end.

(** Decimal text of a Python [int]. *)
Definition int_str (z : Z) : str := lit (NilZero.string_of_int (Z.to_int z)).

(** ** Exceptions *)

(** The exceptions that can pass through [get_weather]. [RequestException]
    stands for the whole family of [requests.RequestException] (connection
    errors, timeouts, [HTTPError], and [JSONDecodeError] from requests 2.27
    on); the last three are what the libraries let through otherwise:
    urllib3's [LocationParseError] from [requests.get], and [ValueError]
    and [RecursionError] from [response.json()]. *)
Inductive exn :=
| RequestException (msg : str)
| AttributeError
| TypeError
| TclError
| LocationParseError
| ValueError
| RecursionError.

(** ** The outside world *)

(** What the code reads of a [requests.Response]. *)
Record Response := {
  (** [status_code], [reason] and [url], which [raise_for_status()] reads. *)
  status_code : Z;
  reason : str;
  url : str;
  (** [json()]: [inl e] raises [e]. *)
  json_body : exn + json;
  (** [content], the body as bytes. *)
  content : list N
}.

(** The text of the [HTTPError] that [raise_for_status()] raises: for the
    codes 400 to 599, and for no other. *)
Definition status_error (r : Response) : option str :=
  if ((400 <=? status_code r) && (status_code r <? 500))%Z then
    Some (int_str (status_code r) ++ lit " Client Error: " ++ reason r
          ++ lit " for url: " ++ url r)
  else if ((500 <=? status_code r) && (status_code r <? 600))%Z then
    Some (int_str (status_code r) ++ lit " Server Error: " ++ reason r
          ++ lit " for url: " ++ url r)
  else None.

(** Everything [get_weather] consults outside the application object. *)
Record World := {
  (** The module global [API_KEY]; empty when [api_config] is missing. *)
  API_KEY : str;
  (** [requests.get(url, params=...)]: [inl e] is an exception raised by
      the call itself (connection error, timeout, bad URL). *)
  requests_get : str -> list (str * str) -> exn + Response;
  (** Whether Tk recognises base64 image data; if not, [tk.PhotoImage]
      raises [TclError]. *)
  image_data_ok : str -> bool;
  (** Python's [repr], used for floats, lists and dicts. *)
  repr : json -> str
}.

Definition API_URL : str := lit "https://api.weatherapi.com/v1/current.json".

(** ** Application state *)

(** A [tk.PhotoImage] created from [data=]. *)
Record PhotoImage := { data : str }.

(** The attributes of [WeatherApp] that [get_weather] reads or writes.
    An image option of [None] is the empty image name. *)
Record WeatherApp := {
  location_entry : str;
  result_var : str;
  icon_image : option PhotoImage;
  icon_label_image : option PhotoImage
}.

(** The state of [WeatherApp.__init__] for a given entry text. *)
Definition init (text : str) : WeatherApp :=
  {| location_entry := text;
     result_var := lit "Enter a location to begin.";
     icon_image := None;
     icon_label_image := None |}.

(** Effects visible outside the application object. *)
Inductive event :=
| ShowInfo (title message : str)
| HttpGet (url : str) (params : list (str * str)) (timeout : Z).

Definition is_http (e : event) : bool :=
  match e with HttpGet _ _ _ => true | ShowInfo _ _ => false end.

Record Run := { app : WeatherApp; trace : list event }.

(** ** The monad *)

(** A computation may change the state and then return or raise; the
    state reached is kept in both cases. *)
Definition M (A : Type) : Type := Run -> (exn + A) * Run.

Definition ret {A} (a : A) : M A := fun s => (inr a, s).

Definition raise {A} (e : exn) : M A := fun s => (inl e, s).

Definition bind {A B} (m : M A) (k : A -> M B) : M B := fun s =>
  match m s with
  | (inr a, s') => k a s'
  | (inl e, s') => (inl e, s')
  end.

Notation "x <- m ;; k" := (bind m (fun x => k))
  (at level 61, m at next level, right associativity).
Notation "m ;; k" := (bind m (fun _ => k))
  (at level 61, right associativity).

(** [try: body / except requests.RequestException as exc:] with the
    exception's text handed to the caller; other exceptions pass. *)
Definition try_request {A} (body : M A) : M (str + A) := fun s =>
  match body s with
  | (inr a, s') => (inr (inr a), s')
  | (inl (RequestException msg), s') => (inr (inl msg), s')
  | (inl e, s') => (inl e, s')
  end.

(** Steps without effects return or raise only. *)
Definition result (A : Type) : Type := (exn + A)%type.

Definition and_then {A B} (r : result A) (k : A -> result B) : result B :=
  match r with
  | inr a => k a
  | inl e => inl e
  end.

Notation "'let?' x ':=' r 'in' k" := (and_then r (fun x => k))
  (at level 10, x name, r at level 100, k at level 200).

Definition lift {A} (r : result A) : M A := fun s => (r, s).

Definition modify (f : WeatherApp -> WeatherApp) : M unit := fun s =>
  (inr tt, {| app := f (app s); trace := trace s |}).

Definition emit (e : event) : M unit := fun s =>
  (inr tt, {| app := app s; trace := trace s ++ [e] |}).

(** [self.location_entry.get()] *)
Definition entry_get : M str := fun s => (inr (location_entry (app s)), s).

(** [self.result_var.set(text)] *)
Definition result_var_set (text : str) : M unit :=
  modify (fun a =>
    {| location_entry := location_entry a; result_var := text;
       icon_image := icon_image a; icon_label_image := icon_label_image a |}).

(** [self.icon_image = img] *)
Definition set_icon_image (img : option PhotoImage) : M unit :=
  modify (fun a =>
    {| location_entry := location_entry a; result_var := result_var a;
       icon_image := img; icon_label_image := icon_label_image a |}).

(** [self.icon_label.configure(image=img)]; the [bg] option the source also
    passes is the colour the label was created with. *)
Definition icon_label_configure (img : option PhotoImage) : M unit :=
  modify (fun a =>
    {| location_entry := location_entry a; result_var := result_var a;
       icon_image := icon_image a; icon_label_image := img |}).

(** [messagebox.showinfo(title, message)] *)
Definition showinfo (title message : str) : M unit := emit (ShowInfo title message).

(** ** The handler *)

(** The locals that lines 286-294 bind. *)
Record Fields := {
  name : json;
  region : json;
  country : json;
  temp_c : json;
  feelslike_c : json;
  humidity : json;
  wind_kph : json;
  cond_text : json;
  icon_path : json
}.

(** [v.get(key, default)]; only a dict has the method. *)
Definition dict_get (v : json) (key : str) (default : json) : result json :=
  match v with
  | JObj d => inr (match assoc key d with Some x => x | None => default end)
  | _ => inl AttributeError
  end.

(** [filter(None, items)] *)
Definition filter_truthy (items : list json) : list json := filter truthy items.

(** [sep.join(items)]: every item has to be a [str]. *)
Fixpoint strs_of (items : list json) : result (list str) :=
  match items with
  | [] => inr []
  | JStr s :: rest => let? ss := strs_of rest in inr (s :: ss)
  | _ :: _ => inl TypeError
  end.

Definition str_join (sep : str) (items : list json) : result str :=
  let? ss := strs_of items in inr (join sep ss).

(** Lines 282-294. *)
Definition extract_fields (location : str) (data : json) : result Fields :=
  let? location_data := dict_get data (lit "location") (JObj []) in
  let? current := dict_get data (lit "current") (JObj []) in
  let? condition0 := dict_get current (lit "condition") (JObj []) in
  let condition := py_or condition0 (JObj []) in
  let? name := dict_get location_data (lit "name") (JStr location) in
  let? region := dict_get location_data (lit "region") (JStr []) in
  let? country := dict_get location_data (lit "country") (JStr []) in
  let? temp_c := dict_get current (lit "temp_c") (JStr (lit "?")) in
  let? feelslike_c := dict_get current (lit "feelslike_c") (JStr (lit "?")) in
  let? humidity := dict_get current (lit "humidity") (JStr (lit "?")) in
  let? wind_kph := dict_get current (lit "wind_kph") (JStr (lit "?")) in
  let? cond_text := dict_get condition (lit "text") (JStr (lit "Unknown")) in
  let? icon_path0 := dict_get condition (lit "icon") (JStr []) in
  inr {| name := name; region := region; country := country;
         temp_c := temp_c; feelslike_c := feelslike_c;
         humidity := humidity; wind_kph := wind_kph;
         cond_text := cond_text;
         icon_path := py_or icon_path0 (JStr []) |}.

(** Line 295 on a string: a protocol-relative path gets the scheme. *)
Definition with_scheme (s : str) : str :=
  if startswith s (lit "//") then lit "https:" ++ s else s.

(** Line 295: [startswith] is a method of [str] only. *)
Definition icon_url_of (icon_path : json) : result str :=
  match icon_path with
  | JStr s => inr (with_scheme s)
  | _ => inl AttributeError
  end.

(** Line 307. *)
Definition location_line_of (f : Fields) : result str :=
  str_join (lit ", ") (filter_truthy [name f; region f; country f]).

Section Handler.

Variable w : World.

(** [str(v)], as an f-string field formats it. *)
Definition py_str (v : json) : str :=
  match v with
  | JStr s => s
  | JNull => lit "None"
  | JBool true => lit "True"
  | JBool false => lit "False"
  | JInt z => int_str z
  | _ => repr w v
  end.

(** [requests.get(url, params=params, timeout=timeout)] *)
Definition get (url : str) (params : list (str * str)) (timeout : Z) : M Response :=
  emit (HttpGet url params timeout) ;;
  match requests_get w url params with
  | inl e => raise e
  | inr r => ret r
  end.

(** [response.raise_for_status()] *)
Definition raise_for_status (r : Response) : M unit :=
  match status_error r with
  | Some msg => raise (RequestException msg)
  | None => ret tt
  end.

(** [response.json()] *)
Definition response_json (r : Response) : M json :=
  match json_body r with
  | inl e => raise e
  | inr v => ret v
  end.

(** [tk.PhotoImage(data=d)] *)
Definition tk_PhotoImage (d : str) : M PhotoImage :=
  if image_data_ok w d then ret {| data := d |} else raise TclError.

(** The parameters of the primary request (line 268). *)
Definition query_params (location : str) : list (str * str) :=
  [(lit "key", API_KEY w); (lit "q", location); (lit "aqi", lit "no")].

(** Lines 266-272, the body of the first [try]. *)
Definition fetch_weather (location : str) : M json :=
  response <- get API_URL (query_params location) 10 ;;
  raise_for_status response ;;
  response_json response.

(** Lines 298-302, the body of the second [try]. *)
Definition fetch_icon (icon_url : str) : M unit :=
  icon_resp <- get icon_url [] 10 ;;
  raise_for_status icon_resp ;;
  let icon_b64 := b64encode (content icon_resp) in
  img <- tk_PhotoImage icon_b64 ;;
  set_icon_image (Some img) ;;
  icon_label_configure (Some img).

(** Lines 295-305. *)
Definition load_icon (icon_path : json) : M unit :=
  icon_url <- lift (icon_url_of icon_path) ;;
  if nonempty icon_url then
    r <- try_request (fetch_icon icon_url) ;;
    match r with
    | inr _ => ret tt
    | inl _ => set_icon_image None ;; icon_label_configure None
    end
  else ret tt.

(** Lines 308-314, the list [details] once [location_line] is known. *)
Definition details (location location_line : str) (f : Fields) : list str :=
  [ if nonempty location_line then location_line else location;
    lit "Condition: " ++ py_str (cond_text f);
    lit "Temperature: " ++ py_str (temp_c f) ++ degree ++ lit "C (feels like "
      ++ py_str (feelslike_c f) ++ degree ++ lit "C)";
    lit "Humidity: " ++ py_str (humidity f) ++ lit "%";
    lit "Wind: " ++ py_str (wind_kph f) ++ lit " kph" ].

(** Lines 307-315. *)
Definition show_details (location : str) (f : Fields) : M unit :=
  location_line <- lift (location_line_of f) ;;
  result_var_set (join [10] (details location location_line f)).

(** [WeatherApp.get_weather] (lines 256-315). *)
Definition get_weather : M unit :=
  text <- entry_get ;;
  let location := strip text in
  if negb (nonempty location) then
    showinfo (lit "Enter a location") (lit "Please type a city or ZIP/postal code.")
  else if negb (nonempty (API_KEY w)) then
    result_var_set
      (lit "Missing API key. Add your key to api_config.py (kept out of git).")
  else
    fetched <- try_request (fetch_weather location) ;;
    match fetched with
    | inl exc =>
        result_var_set (lit "Error fetching weather data: " ++ exc) ;;
        icon_label_configure None ;;
        set_icon_image None
    | inr data =>
        set_icon_image None ;;
        icon_label_configure None ;;
        f <- lift (extract_fields location data) ;;
        load_icon (icon_path f) ;;
        show_details location f
    end.

End Handler.

(** ** The rounded widgets *)

(** A polygon item of a canvas, with the options both classes pass to
    [create_polygon]. *)
Record polygon := {
  points : list Z;
  smooth : bool;
  splinesteps : Z;
  fill : str;
  outline : str;
  tags : str
}.

(** [canvas.delete(tag)] on the polygons of a canvas. *)
Definition delete (tag : str) (items : list polygon) : list polygon :=
  filter (fun i => negb (str_eqb (tags i) tag)) items.

(** What the handlers read of a [tk.Event]. *)
Record Event := { width : Z; height : Z }.

(** [min(radius, w // 2, h // 2)] of both [_redraw] methods; [//] is floor
    division. *)
Definition clamped (radius w h : Z) : Z :=
  Z.min (Z.min radius (w / 2)) (h / 2).

Module RoundedCard.

(** The attributes set by [__init__], and of the canvas the card is: its
    size as Tk reports it, the size asked for with [config], the position
    of the window item tagged "inner", and the polygon items in display
    order. *)
Record t := {
  radius : Z;
  fg_color : str;
  shadow_color : str;
  bg_color : str;
  padding : Z;
  winfo_width : Z;
  winfo_height : Z;
  req_width : Z;
  req_height : Z;
  inner_at : Z * Z;
  items : list polygon
}.

Definition with_items (l : list polygon) (c : t) : t :=
  {| radius := radius c; fg_color := fg_color c;
     shadow_color := shadow_color c; bg_color := bg_color c;
     padding := padding c;
     winfo_width := winfo_width c; winfo_height := winfo_height c;
     req_width := req_width c; req_height := req_height c;
     inner_at := inner_at c; items := l |}.

(** [self.coords("inner", x, y)] *)
Definition coords_inner (x y : Z) (c : t) : t :=
  {| radius := radius c; fg_color := fg_color c;
     shadow_color := shadow_color c; bg_color := bg_color c;
     padding := padding c;
     winfo_width := winfo_width c; winfo_height := winfo_height c;
     req_width := req_width c; req_height := req_height c;
     inner_at := (x, y); items := items c |}.

(** [self.config(width=width, height=height)] *)
Definition config (width height : Z) (c : t) : t :=
  {| radius := radius c; fg_color := fg_color c;
     shadow_color := shadow_color c; bg_color := bg_color c;
     padding := padding c;
     winfo_width := winfo_width c; winfo_height := winfo_height c;
     req_width := width; req_height := height;
     inner_at := inner_at c; items := items c |}.

(** Lines 41-63. *)
Definition _rounded_polygon (x1 y1 x2 y2 radius : Z) (fill tag : str) (c : t) : t :=
  let points :=
    [ x1 + radius; y1;
      x2 - radius; y1;
      x2; y1;
      x2; y1 + radius;
      x2; y2 - radius;
      x2; y2;
      x2 - radius; y2;
      x1 + radius; y2;
      x1; y2;
      x1; y2 - radius;
      x1; y1 + radius;
      x1; y1 ]%Z in
  with_items
    (items c ++ [ {| points := points; smooth := true; splinesteps := 32;
                     fill := fill; outline := []; tags := tag |} ]) c.

(** Lines 65-75. *)
Definition _redraw (event : option Event) (c : t) : t :=
  let c := with_items (delete (lit "card") (items c)) c in
  let w := winfo_width c in
  let h := winfo_height c in
  let r := clamped (radius c) w h in
  let offset := 6%Z in
  let c := _rounded_polygon offset offset (w - 1) (h - 1) r
             (shadow_color c) (lit "card") c in
  let c := _rounded_polygon 0 0 (w - offset) (h - offset) r
             (fg_color c) (lit "card") c in
  coords_inner (padding c) (padding c) c.

(** Lines 77-81. *)
Definition _resize_to_inner (event : Event) (c : t) : t :=
  let width := (width event + padding c * 2)%Z in
  let height := (height event + padding c * 2)%Z in
  let c := config width height c in
  _redraw None c.

End RoundedCard.

Module RoundedEntry.

(** The attributes set by [__init__], and of [self.canvas]: its size as Tk
    reports it, the size asked for with [config], the position of the
    window item tagged "entry", and the polygon items in display order. *)
Record t := {
  radius : Z;
  padding : Z;
  bg_color : str;
  input_bg : str;
  shadow_color : str;
  text_color : str;
  winfo_width : Z;
  winfo_height : Z;
  req_width : Z;
  req_height : Z;
  entry_at : Q * Q;
  items : list polygon
}.

Definition with_items (l : list polygon) (c : t) : t :=
  {| radius := radius c; padding := padding c; bg_color := bg_color c;
     input_bg := input_bg c; shadow_color := shadow_color c;
     text_color := text_color c;
     winfo_width := winfo_width c; winfo_height := winfo_height c;
     req_width := req_width c; req_height := req_height c;
     entry_at := entry_at c; items := l |}.

(** [self.canvas.coords("entry", x, y)] *)
Definition coords_entry (x y : Q) (c : t) : t :=
  {| radius := radius c; padding := padding c; bg_color := bg_color c;
     input_bg := input_bg c; shadow_color := shadow_color c;
     text_color := text_color c;
     winfo_width := winfo_width c; winfo_height := winfo_height c;
     req_width := req_width c; req_height := req_height c;
     entry_at := (x, y); items := items c |}.

(** [self.canvas.config(height=h, width=w)] *)
Definition config (height width : Z) (c : t) : t :=
  {| radius := radius c; padding := padding c; bg_color := bg_color c;
     input_bg := input_bg c; shadow_color := shadow_color c;
     text_color := text_color c;
     winfo_width := winfo_width c; winfo_height := winfo_height c;
     req_width := width; req_height := height;
     entry_at := entry_at c; items := items c |}.

(** Lines 122-137. *)
Definition _rounded_polygon (x1 y1 x2 y2 radius : Z) (fill tag : str) (c : t) : t :=
  let points :=
    [ x1 + radius; y1;
      x2 - radius; y1;
      x2; y1;
      x2; y1 + radius;
      x2; y2 - radius;
      x2; y2;
      x2 - radius; y2;
      x1 + radius; y2;
      x1; y2;
      x1; y2 - radius;
      x1; y1 + radius;
      x1; y1 ]%Z in
  with_items
    (items c ++ [ {| points := points; smooth := true; splinesteps := 32;
                     fill := fill; outline := []; tags := tag |} ]) c.

(** Lines 139-149. An event object is truthy, so its size is used
    whenever an event is passed. The quotient [h / 2] is a float; it is
    kept as the rational it stands for. *)
Definition _redraw (event : option Event) (c : t) : t :=
  let w := match event with Some e => width e | None => winfo_width c end in
  let h := match event with Some e => height e | None => winfo_height c end in
  let r := clamped (radius c) w h in
  let c := config h w c in
  let c := with_items (delete (lit "shape") (items c)) c in
  let offset := 4%Z in
  let c := _rounded_polygon offset offset (w - 1) (h - 1) r
             (shadow_color c) (lit "shape") c in
  let c := _rounded_polygon 0 0 (w - offset) (h - offset) r
             (input_bg c) (lit "shape") c in
  coords_entry (inject_Z (padding c + r)) (inject_Z h / 2)%Q c.

End RoundedEntry.

(** The twelve control points of an outline, as pairs. *)
Fixpoint pairs (l : list Z) : list (Z * Z) :=
  match l with
  | x :: y :: rest => (x, y) :: pairs rest
  | _ => []
  end.

(** An outline of twelve control points that goes once round its box:
    along the top to the right, down the right side, back along the bottom
    and up the left side, never turning back on a side. *)
Definition goes_round (pts : list Z) : bool :=
  match pairs pts with
  | [ (a1, _); (a2, _); (a3, _); (_, b1); (_, b2); (_, b3);
      (c1, _); (c2, _); (c3, _); (_, d1); (_, d2); (_, d3) ] =>
      ((a1 <=? a2) && (a2 <=? a3) && (b1 <=? b2) && (b2 <=? b3)
       && (c3 <=? c2) && (c2 <=? c1) && (d3 <=? d2) && (d2 <=? d1))%Z
  | _ => false
  end.

(** The point list both [_rounded_polygon] methods build. *)
Definition items_points (x1 y1 x2 y2 radius : Z) : list Z :=
  [ x1 + radius; y1;
    x2 - radius; y1;
    x2; y1;
    x2; y1 + radius;
    x2; y2 - radius;
    x2; y2;
    x2 - radius; y2;
    x1 + radius; y2;
    x1; y2;
    x1; y2 - radius;
    x1; y1 + radius;
    x1; y1 ]%Z.

(** The size a redraw of the entry works with: the event's, or the
    canvas's own when no event is passed. *)
Definition seen_width (c : RoundedEntry.t) (e : option Event) : Z :=
  match e with Some ev => width ev | None => RoundedEntry.winfo_width c end.

Definition seen_height (c : RoundedEntry.t) (e : option Event) : Z :=
  match e with Some ev => height ev | None => RoundedEntry.winfo_height c end.

(** The polygons of a canvas that carry a tag. *)
Definition tagged (tag : str) (items : list polygon) : list polygon :=
  filter (fun i => str_eqb (tags i) tag) items.

(** ** A sample session *)

Module Sample.

(** [repr] on the two floats of the sample body, 17.0 and 15.5. *)
Definition sample_repr (v : json) : str :=
  match v with
  | JFloat 4625478292286210048 => lit "17.0"
  | JFloat 4624915342332788736 => lit "15.5"
  | _ => lit "..."
  end.

Definition reply (body : json) : Response :=
  {| status_code := 200; reason := lit "OK"; url := API_URL;
     json_body := inr body; content := [] |}.

Definition png : Response :=
  {| status_code := 200; reason := lit "OK";
     url := lit "https://cdn.weatherapi.com/weather/64x64/day/116.png";
     json_body :=
       inl (RequestException (lit "Expecting value: line 1 column 1 (char 0)"));
     content := [137; 80; 78; 71; 13; 10; 26; 10] |}.

(** A world that answers the primary request with [primary], any other
    request with [icon], and whose Tk accepts image data or not. *)
Definition world (key : str) (primary icon : exn + Response) (tk_ok : bool) : World :=
  {| API_KEY := key;
     requests_get := fun url _ => if str_eqb url API_URL then primary else icon;
     image_data_ok := fun _ => tk_ok;
     repr := sample_repr |}.

Definition icon_field : str * json :=
  (lit "icon", JStr (lit "//cdn.weatherapi.com/weather/64x64/day/116.png")).

Definition london : json :=
  JObj [ (lit "location",
          JObj [ (lit "name", JStr (lit "London"));
                 (lit "region", JStr (lit "City of London, Greater London"));
                 (lit "country", JStr (lit "United Kingdom")) ]);
         (lit "current",
          JObj [ (lit "temp_c", JFloat 4625478292286210048);
                 (lit "feelslike_c", JFloat 4624915342332788736);
                 (lit "humidity", JInt 72);
                 (lit "wind_kph", JFloat 4624915342332788736);
                 (lit "condition",
                  JObj [ (lit "text", JStr (lit "Partly cloudy")); icon_field ]) ]) ].

Definition start (text : str) : Run := {| app := init text; trace := [] |}.

(** A body that has an icon path and nothing else. *)
Definition icon_only : json :=
  JObj [ (lit "current", JObj [ (lit "condition", JObj [ icon_field ]) ]) ].

(** A body whose condition is null. *)
Definition no_condition : json :=
  JObj [ (lit "location", JObj [ (lit "name", JStr (lit "Oslo")) ]);
         (lit "current",
          JObj [ (lit "temp_c", JInt (-3)); (lit "condition", JNull) ]) ].

(** The application after an earlier query: a result text and an icon
    are on display. *)
Definition earlier : WeatherApp :=
  {| location_entry := lit "London";
     result_var := lit "Paris, Ile-de-France, France";
     icon_image := Some {| data := lit "R0lGODlh" |};
     icon_label_image := Some {| data := lit "R0lGODlh" |} |}.

(** The same application with another text typed into the entry. *)
Definition earlier_with (text : str) : WeatherApp :=
  {| location_entry := text;
     result_var := result_var earlier;
     icon_image := icon_image earlier;
     icon_label_image := icon_label_image earlier |}.

(** Space, tab, no-break space, ideographic space. *)
Definition blank : str := [32; 9; 160; 12288].

Definition timed_out : exn + Response :=
  inl (RequestException (lit "Read timed out.")).

Definition icon_url : str :=
  lit "https://cdn.weatherapi.com/weather/64x64/day/116.png".

(** A body that is a list, one whose location name is a number, and one
    whose condition is an empty list. *)
Definition listed : json := JArr [].

Definition numbered : json :=
  JObj [ (lit "location", JObj [ (lit "name", JInt 5) ]) ].

Definition empty_condition : json :=
  JObj [ (lit "current", JObj [ (lit "condition", JArr []) ]) ].

(** Worlds for the sample bodies: the icon request answered with the PNG
    bytes, Tk decoding them or not. *)
Definition serving (body : json) (tk_ok : bool) : World :=
  world (lit "k3y") (inr (reply body)) (inr png) tk_ok.

Definition icon_path_116 : str :=
  lit "//cdn.weatherapi.com/weather/64x64/day/116.png".

(** A reply with a status that is neither 2xx nor an error for
    [raise_for_status], and a reply whose body is not JSON under a requests
    older than 2.27, where [json()] raises a plain [ValueError]. *)
Definition moved : Response :=
  {| status_code := 301; reason := lit "Moved Permanently"; url := API_URL;
     json_body := inr (JObj []); content := [] |}.

Definition not_json : Response :=
  {| status_code := 200; reason := lit "OK"; url := API_URL;
     json_body := inl ValueError; content := [60; 104; 116; 109; 108; 62] |}.

(** A body with an icon path whose location name is a number. *)
Definition numbered_icon : json :=
  JObj [ (lit "location", JObj [ (lit "name", JInt 5) ]);
         (lit "current", JObj [ (lit "condition", JObj [ icon_field ]) ]) ].

(** A body whose [current] is null. *)
Definition null_current : json := JObj [ (lit "current", JNull) ].

(** A body whose icon path names a host with an empty label, for which
    [requests.get] lets urllib3's [LocationParseError] through. *)
Definition odd_host : json :=
  JObj [ (lit "current",
          JObj [ (lit "condition",
                  JObj [ (lit "icon",
                          JStr (lit "//cdn..weatherapi.com/day/116.png")) ]) ]) ].

Definition odd_url : str := lit "https://cdn..weatherapi.com/day/116.png".

Definition tromso_text : str :=
  lit "Tromso" ++ [10]
  ++ lit "Condition: Unknown" ++ [10]
  ++ lit "Temperature: ?" ++ degree ++ lit "C (feels like ?" ++ degree
  ++ lit "C)" ++ [10]
  ++ lit "Humidity: ?%" ++ [10]
  ++ lit "Wind: ? kph".

Definition oslo_text : str :=
  lit "Oslo" ++ [10]
  ++ lit "Condition: Unknown" ++ [10]
  ++ lit "Temperature: -3" ++ degree ++ lit "C (feels like ?" ++ degree
  ++ lit "C)" ++ [10]
  ++ lit "Humidity: ?%" ++ [10]
  ++ lit "Wind: ? kph".

Definition london_text : str :=
  lit "London, City of London, Greater London, United Kingdom" ++ [10]
  ++ lit "Condition: Partly cloudy" ++ [10]
  ++ lit "Temperature: 17.0" ++ degree ++ lit "C (feels like 15.5" ++ degree
  ++ lit "C)" ++ [10]
  ++ lit "Humidity: 72%" ++ [10]
  ++ lit "Wind: 15.5 kph".

End Sample.

(** ** Vocabulary of the statements *)

(** The member [key] of a JSON object; nothing has members but an object. *)
Definition member (key : str) (v : json) : option json :=
  match v with
  | JObj d => assoc key d
  | _ => None
  end.

(** The value reached from [v] along a path of member names. *)
Fixpoint member_at (path : list str) (v : json) : option json :=
  match path with
  | [] => Some v
  | key :: rest =>
      match member key v with
      | Some x => member_at rest x
      | None => None
      end
  end.

Definition get_or (o : option json) (default : json) : json :=
  match o with Some x => x | None => default end.

Definition is_dict (v : json) : bool :=
  match v with JObj _ => true | _ => false end.

Definition dict_or_null (v : json) : bool :=
  match v with JObj _ | JNull => true | _ => false end.

Definition str_or_null (v : json) : bool :=
  match v with JStr _ | JNull => true | _ => false end.

Definition is_null (v : json) : bool :=
  match v with JNull => true | _ => false end.

Definition falsy (v : json) : bool := negb (truthy v).

Definition absent_or (p : json -> bool) (o : option json) : bool :=
  match o with Some v => p v | None => true end.

Definition k_location : list str := [lit "location"].
Definition k_name : list str := [lit "location"; lit "name"].
Definition k_region : list str := [lit "location"; lit "region"].
Definition k_country : list str := [lit "location"; lit "country"].
Definition k_current : list str := [lit "current"].
Definition k_temp_c : list str := [lit "current"; lit "temp_c"].
Definition k_feelslike_c : list str := [lit "current"; lit "feelslike_c"].
Definition k_humidity : list str := [lit "current"; lit "humidity"].
Definition k_wind_kph : list str := [lit "current"; lit "wind_kph"].
Definition k_condition : list str := [lit "current"; lit "condition"].
Definition k_text : list str := [lit "current"; lit "condition"; lit "text"].
Definition k_icon : list str := [lit "current"; lit "condition"; lit "icon"].

(** A body of the shape the weather endpoint documents: an object whose
    [location] and [current] members are objects, whose [condition] is an
    object or null, and whose location names and icon path are strings or
    null.  Every member may be missing; the other fields may hold any value. *)
Definition conforms (data : json) : bool :=
  is_dict data
  && absent_or is_dict (member_at k_location data)
  && absent_or is_dict (member_at k_current data)
  && absent_or dict_or_null (member_at k_condition data)
  && absent_or str_or_null (member_at k_icon data)
  && absent_or str_or_null (member_at k_name data)
  && absent_or str_or_null (member_at k_region data)
  && absent_or str_or_null (member_at k_country data).

(** The fields of a body read along their paths, with the defaults of the
    source. *)
Definition fields_of (location : str) (data : json) : Fields :=
  {| name := get_or (member_at k_name data) (JStr location);
     region := get_or (member_at k_region data) (JStr []);
     country := get_or (member_at k_country data) (JStr []);
     temp_c := get_or (member_at k_temp_c data) (JStr (lit "?"));
     feelslike_c := get_or (member_at k_feelslike_c data) (JStr (lit "?"));
     humidity := get_or (member_at k_humidity data) (JStr (lit "?"));
     wind_kph := get_or (member_at k_wind_kph data) (JStr (lit "?"));
     cond_text := get_or (member_at k_text data) (JStr (lit "Unknown"));
     icon_path := py_or (get_or (member_at k_icon data) (JStr [])) (JStr []) |}.

(** The first [try] block ends in a [RequestException] of text [msg]:
    raised by the request itself, by the status check, or by the JSON
    decoder. *)
Inductive primary_failure (w : World) (location msg : str) : Prop :=
| transport_failure :
    requests_get w API_URL (query_params w location)
      = inl (RequestException msg) ->
    primary_failure w location msg
| status_failure r :
    requests_get w API_URL (query_params w location) = inr r ->
    status_error r = Some msg ->
    primary_failure w location msg
| body_failure r :
    requests_get w API_URL (query_params w location) = inr r ->
    status_error r = None ->
    json_body r = inl (RequestException msg) ->
    primary_failure w location msg.

(** The first [try] block ends with the parsed body [data]. *)
Inductive primary_success (w : World) (location : str) (data : json) : Prop :=
| body_parsed r :
    requests_get w API_URL (query_params w location) = inr r ->
    status_error r = None ->
    json_body r = inr data ->
    primary_success w location data.

(** The request for the icon raises a [RequestException]: the call itself,
    or the status check. *)
Inductive icon_fetch_failure (w : World) (url : str) : Prop :=
| icon_transport_failure msg :
    requests_get w url [] = inl (RequestException msg) ->
    icon_fetch_failure w url
| icon_status_failure r msg :
    requests_get w url [] = inr r ->
    status_error r = Some msg ->
    icon_fetch_failure w url.

(** The icon bytes arrive, and Tk does not recognise them as an image. *)
Inductive icon_decode_failure (w : World) (url : str) : Prop :=
| icon_not_recognised r :
    requests_get w url [] = inr r ->
    status_error r = None ->
    image_data_ok w (b64encode (content r)) = false ->
    icon_decode_failure w url.

(** Record updates used to describe final states. *)
Definition with_result (text : str) (a : WeatherApp) : WeatherApp :=
  {| location_entry := location_entry a; result_var := text;
     icon_image := icon_image a; icon_label_image := icon_label_image a |}.

Definition with_icon (img : option PhotoImage) (a : WeatherApp) : WeatherApp :=
  {| location_entry := location_entry a; result_var := result_var a;
     icon_image := img; icon_label_image := img |}.

Definition primary_request (w : World) (location : str) : event :=
  HttpGet API_URL (query_params w location) 10.

Definition icon_request (url : str) : event := HttpGet url [] 10.

(** The dialog of the first guard and the text of the second. *)
Definition dialog : event :=
  ShowInfo (lit "Enter a location") (lit "Please type a city or ZIP/postal code.").

Definition guidance : str :=
  lit "Missing API key. Add your key to api_config.py (kept out of git).".

(** The state in which the fields are extracted: both icon references
    cleared, the primary request made. *)
Definition cleared (w : World) (a : WeatherApp) (tr : list event) : Run :=
  {| app := with_icon None a;
     trace := tr ++ [primary_request w (strip (location_entry a))] |}.

(** The three steps that follow the clearing of the icon (lines 282-315). *)
Definition display (w : World) (location : str) (data : json) : M unit :=
  f <- lift (extract_fields location data) ;;
  load_icon w (icon_path f) ;;
  show_details w location f.

(** What a run changes on the application object: a new result text or
    none, new icon references or none. *)
Record change := {
  new_text : option str;
  new_icon : option (option PhotoImage)
}.

Definition apply_change (ch : change) (a : WeatherApp) : WeatherApp :=
  {| location_entry := location_entry a;
     result_var := match new_text ch with Some t => t | None => result_var a end;
     icon_image := match new_icon ch with Some i => i | None => icon_image a end;
     icon_label_image :=
       match new_icon ch with Some i => i | None => icon_label_image a end |}.

Definition unchanged : change := {| new_text := None; new_icon := None |}.

Definition dict_or_falsy (v : json) : bool := is_dict v || falsy v.

(** The shape lines 282-294 need of a body to read it: an object whose
    [location] and [current], when present, are objects and whose
    [condition], when present, is an object or falsy. *)
Definition readable (data : json) : bool :=
  is_dict data
  && absent_or is_dict (member_at k_location data)
  && absent_or is_dict (member_at k_current data)
  && absent_or dict_or_falsy (member_at k_condition data).

(** A value [join] refuses. *)
Definition unjoinable (v : json) : bool :=
  truthy v && negb (match v with JStr _ => true | _ => false end).

(** The string a location field contributes to the first line: itself
    when it is a string, nothing otherwise. *)
Definition str_of (v : json) : str :=
  match v with JStr s => s | _ => [] end.

(** The first line as the interface describes it: the non-empty ones of
    name, region and country separated by ", ", and the query when all
    three are empty. *)
Definition first_line (query n r c : str) : str :=
  match nonempty n, nonempty r, nonempty c with
  | true, true, true => n ++ lit ", " ++ r ++ lit ", " ++ c
  | true, true, false => n ++ lit ", " ++ r
  | true, false, true => n ++ lit ", " ++ c
  | true, false, false => n
  | false, true, true => r ++ lit ", " ++ c
  | false, true, false => r
  | false, false, true => c
  | false, false, false => query
  end.

Definition joinable (v : json) : bool := negb (unjoinable v).

(** The location name, region and country of a body are strings or falsy,
    so that [join] accepts what [filter] leaves of them. *)
Definition joinable_names (data : json) : bool :=
  absent_or joinable (member_at k_name data)
  && absent_or joinable (member_at k_region data)
  && absent_or joinable (member_at k_country data).

(** ** Whitespace and [strip] *)

Lemma lstrip_blank (s : str) : forallb isspace s = true -> lstrip s = [].
Proof.
  induction s as [|c s IH]; simpl; [reflexivity|].
  intros H. apply andb_prop in H as [Hc Hs]. rewrite Hc. auto.
Qed.

Lemma lstrip_empty_blank (s : str) : lstrip s = [] -> forallb isspace s = true.
Proof.
  induction s as [|c s IH]; simpl; [reflexivity|].
  destruct (isspace c); simpl; [exact IH | discriminate].
Qed.

Lemma lstrip_head (s : str) :
  lstrip s = [] \/ exists c t, lstrip s = c :: t /\ isspace c = false.
Proof.
  induction s as [|c s IH]; simpl; [now left|].
  destruct (isspace c) eqn:E; [exact IH|].
  right. now exists c, s.
Qed.

Lemma strip_blank (s : str) : forallb isspace s = true -> strip s = [].
Proof.
  intros H. unfold strip, rstrip. now rewrite (lstrip_blank s H).
Qed.

(** [strip] leaves nothing exactly when the text is blank. *)
Lemma strip_empty_iff (s : str) : strip s = [] <-> forallb isspace s = true.
Proof.
  split; [|apply strip_blank].
  unfold strip, rstrip. intros H.
  apply (f_equal (@rev char)) in H. rewrite rev_involutive in H. simpl in H.
  apply lstrip_empty_blank in H.
  apply lstrip_empty_blank.
  destruct (lstrip_head s) as [E | (c & t & E & Hc)]; [exact E|].
  rewrite E in H. simpl in H. rewrite forallb_app in H.
  apply andb_prop in H as [_ H]. simpl in H. rewrite Hc in H. discriminate.
Qed.

Lemma strip_nonempty_not_blank (s : str) :
  nonempty (strip s) = true -> forallb isspace s = false.
Proof.
  intros H. destruct (forallb isspace s) eqn:E; [|reflexivity].
  rewrite (strip_blank s E) in H. discriminate.
Qed.

(** ** The two guards and the primary request *)

Arguments lit : simpl never.
Arguments strip : simpl never.
Arguments b64encode : simpl never.
Arguments with_scheme : simpl never.

Ltac unfold_steps :=
  unfold fetch_weather, fetch_icon, get, raise_for_status, response_json,
    tk_PhotoImage, showinfo, result_var_set, set_icon_image,
    icon_label_configure, entry_get, modify, emit, lift, try_request,
    bind, ret, raise, primary_request, icon_request, with_result, with_icon.

(** Projections of the state records, and nothing else, are reduced. *)
Ltac tidy :=
  unfold with_icon, with_result;
  cbn [app trace location_entry result_var icon_image icon_label_image fst snd].

Section Guards.

Variable w : World.

Lemma try_fetch_weather_failure location msg (s : Run) :
  primary_failure w location msg ->
  try_request (fetch_weather w location) s =
    (inr (inl msg),
     {| app := app s; trace := trace s ++ [primary_request w location] |}).
Proof.
  intros [H | r H Hs | r H Hs Hj]; unfold_steps; simpl; rewrite H; simpl.
  - reflexivity.
  - rewrite Hs. reflexivity.
  - rewrite Hs. simpl. rewrite Hj. reflexivity.
Qed.

Lemma try_fetch_weather_success location data (s : Run) :
  primary_success w location data ->
  try_request (fetch_weather w location) s =
    (inr (inr data),
     {| app := app s; trace := trace s ++ [primary_request w location] |}).
Proof.
  intros [r H Hs Hj]. unfold_steps. simpl. rewrite H. simpl.
  rewrite Hs. simpl. rewrite Hj. reflexivity.
Qed.

(** C2. When the entry holds only whitespace (or nothing), [get_weather]
    shows the validation dialog and does nothing else: no HTTP request is
    made and the application state, result text and icon included, is the
    one it started from. *)
Theorem blank_location_shows_dialog_only (a : WeatherApp) (tr : list event) :
  forallb isspace (location_entry a) = true ->
  get_weather w {| app := a; trace := tr |} =
    (inr tt, {| app := a; trace := tr ++ [dialog] |})
  /\ filter is_http (tr ++ [dialog]) = filter is_http tr.
Proof.
  intros H. split.
  - unfold get_weather. unfold_steps. simpl.
    rewrite (strip_blank _ H). reflexivity.
  - rewrite filter_app. simpl. apply app_nil_r.
Qed.

(** C3. With a location typed and no API key configured, [get_weather]
    makes no HTTP request (it has no outside effect at all) and replaces
    the result text by the fixed guidance message. *)
Theorem missing_key_shows_guidance (a : WeatherApp) (tr : list event) :
  nonempty (strip (location_entry a)) = true ->
  API_KEY w = [] ->
  get_weather w {| app := a; trace := tr |} =
    (inr tt, {| app := with_result guidance a; trace := tr |}).
Proof.
  intros Hl Hk. unfold get_weather. unfold_steps. simpl.
  rewrite Hl, Hk. reflexivity.
Qed.

(** C4, as the code has it. With a location typed and a key configured,
    when the first [try] block raises a [RequestException] (raised by
    [requests.get], by [raise_for_status] for a status of 400 to 599, or by
    [response.json()]), [get_weather] returns normally, the result text is
    "Error fetching weather data: " followed by the exception's text, both
    the stored icon and the icon shown by the label are cleared, and the
    primary request is the only outside effect. *)
Theorem primary_failure_is_reported (a : WeatherApp) (tr : list event) (msg : str) :
  nonempty (strip (location_entry a)) = true ->
  nonempty (API_KEY w) = true ->
  primary_failure w (strip (location_entry a)) msg ->
  get_weather w {| app := a; trace := tr |} =
    (inr tt,
     {| app := with_icon None
                 (with_result (lit "Error fetching weather data: " ++ msg) a);
        trace := tr ++ [primary_request w (strip (location_entry a))] |})
  /\ startswith (lit "Error fetching weather data: " ++ msg)
       (lit "Error fetching weather data:") = true.
Proof.
  intros Hl Hk Hf. split; [|reflexivity].
  unfold get_weather, bind at 1, entry_get. simpl.
  rewrite Hl, Hk. simpl.
  unfold bind at 1. rewrite (try_fetch_weather_failure _ _ _ Hf).
  reflexivity.
Qed.

End Guards.

(** ** Extraction and formatting on conforming bodies *)

Lemma conforms_parts (data : json) :
  conforms data = true ->
  is_dict data = true
  /\ absent_or is_dict (member_at k_location data) = true
  /\ absent_or is_dict (member_at k_current data) = true
  /\ absent_or dict_or_null (member_at k_condition data) = true
  /\ absent_or str_or_null (member_at k_icon data) = true
  /\ absent_or str_or_null (member_at k_name data) = true
  /\ absent_or str_or_null (member_at k_region data) = true
  /\ absent_or str_or_null (member_at k_country data) = true.
Proof.
  unfold conforms. intros H.
  repeat (apply andb_prop in H as [H ?]). repeat split; assumption.
Qed.

Lemma option_eta {A} (o : option A) :
  match o with Some x => Some x | None => None end = o.
Proof. now destruct o. Qed.

(** On a conforming body the extraction raises nothing and reads every
    field along its path. *)
Lemma extract_fields_conforms (location : str) (data : json) :
  conforms data = true ->
  extract_fields location data = inr (fields_of location data).
Proof.
  intros H. apply conforms_parts in H as (Hd & Hl & Hc & Hk & _).
  destruct data as [| | | | | |d]; try discriminate. clear Hd.
  unfold extract_fields, fields_of, k_name, k_region, k_country, k_temp_c,
    k_feelslike_c, k_humidity, k_wind_kph, k_text, k_icon.
  unfold k_location in Hl. unfold k_current in Hc. unfold k_condition in Hk.
  simpl in *.
  destruct (assoc (lit "location") d) as [[| | | | | |l]|]; try discriminate;
  destruct (assoc (lit "current") d) as [[| | | | | |c]|]; try discriminate;
  simpl in *; rewrite ?option_eta; try reflexivity;
  (destruct (assoc (lit "condition") c) as [[| | | | | |[|[k0 v0] k]]|];
   try discriminate; simpl; rewrite ?option_eta; reflexivity).
Qed.

Lemma member_at_app (p q : list str) (v : json) :
  member_at (p ++ q) v =
    match member_at p v with Some x => member_at q x | None => None end.
Proof.
  revert v. induction p as [|k p IH]; intros v; simpl; [reflexivity|].
  destruct (member k v); [apply IH | reflexivity].
Qed.

Lemma strs_of_str_or_null (items : list json) :
  forallb str_or_null items = true ->
  exists ss, strs_of (filter_truthy items) = inr ss.
Proof.
  unfold filter_truthy.
  induction items as [|v items IH]; simpl; [now exists []|].
  intros H. apply andb_prop in H as [Hv Hi].
  destruct (IH Hi) as [ss Hss].
  destruct v; try discriminate; simpl; [exact (ex_intro _ ss Hss)|].
  destruct (nonempty s); simpl; [|exact (ex_intro _ ss Hss)].
  rewrite Hss. simpl. now eexists.
Qed.

(** On a conforming body the location line is defined: [join] meets
    strings only. *)
Lemma location_line_conforms (location : str) (data : json) :
  conforms data = true ->
  exists line, location_line_of (fields_of location data) = inr line.
Proof.
  intros H. apply conforms_parts in H as (_ & _ & _ & _ & _ & Hn & Hr & Hc).
  unfold location_line_of, str_join.
  destruct (strs_of_str_or_null
              [name (fields_of location data); region (fields_of location data);
               country (fields_of location data)]) as [ss Hss].
  - unfold fields_of. cbn [name region country forallb].
    destruct (member_at k_name data), (member_at k_region data),
      (member_at k_country data); cbn [get_or absent_or] in *;
      rewrite ?Hn, ?Hr, ?Hc; reflexivity.
  - rewrite Hss. simpl. now eexists.
Qed.

(** On a conforming body the icon path is a string: the member itself
    when it is a non-empty string, the empty string otherwise. *)
Lemma icon_path_conforms (location : str) (data : json) :
  conforms data = true ->
  exists p, icon_path (fields_of location data) = JStr p.
Proof.
  intros H. apply conforms_parts in H as (_ & _ & _ & _ & Hi & _).
  unfold fields_of. cbn [icon_path].
  destruct (member_at k_icon data) as [[| | | |s| |]|]; try discriminate;
    cbn [get_or]; try (now eexists).
  unfold py_or. simpl. destruct (nonempty s); now eexists.
Qed.

Lemma icon_path_present (location : str) (data : json) (p : str) :
  member_at k_icon data = Some (JStr p) ->
  nonempty p = true ->
  icon_path (fields_of location data) = JStr p.
Proof.
  intros H Hp. unfold fields_of. cbn [icon_path]. rewrite H.
  unfold py_or. simpl. now rewrite Hp.
Qed.

Lemma icon_path_missing (location : str) (data : json) :
  absent_or falsy (member_at k_icon data) = true ->
  icon_path (fields_of location data) = JStr [].
Proof.
  intros H. unfold fields_of. cbn [icon_path].
  destruct (member_at k_icon data) as [v|]; cbn [get_or absent_or] in *;
    [|reflexivity].
  unfold py_or. unfold falsy in H. now destruct (truthy v).
Qed.

Lemma with_scheme_nonempty (p : str) :
  nonempty p = true -> nonempty (with_scheme p) = true.
Proof.
  unfold with_scheme. destruct (startswith p (lit "//")); [reflexivity | auto].
Qed.

(** ** The icon step *)

Section IconStep.

Variable w : World.

(** No icon path: nothing is requested, nothing changes. *)
Lemma load_icon_none (s : Run) :
  load_icon w (JStr []) s = (inr tt, s).
Proof. reflexivity. Qed.

(** The icon request raises: the handler clears both icon references. *)
Lemma load_icon_fetch_failure (p : str) (s : Run) :
  nonempty p = true ->
  icon_fetch_failure w (with_scheme p) ->
  load_icon w (JStr p) s =
    (inr tt, {| app := with_icon None (app s);
                trace := trace s ++ [icon_request (with_scheme p)] |}).
Proof.
  intros Hp Hf. unfold load_icon, icon_url_of. unfold bind at 1, lift.
  rewrite (with_scheme_nonempty p Hp).
  destruct Hf as [msg H | r msg H Hs]; unfold_steps; simpl; rewrite H; simpl.
  - reflexivity.
  - rewrite Hs. reflexivity.
Qed.

(** The icon bytes are not an image: [TclError] leaves the second [try]
    uncaught, after the request and before any assignment. *)
Lemma load_icon_decode_failure (p : str) (s : Run) :
  nonempty p = true ->
  icon_decode_failure w (with_scheme p) ->
  load_icon w (JStr p) s =
    (inl TclError, {| app := app s;
                      trace := trace s ++ [icon_request (with_scheme p)] |}).
Proof.
  intros Hp [r H Hs Hd]. unfold load_icon, icon_url_of. unfold bind at 1, lift.
  rewrite (with_scheme_nonempty p Hp).
  unfold_steps. simpl. rewrite H. simpl. rewrite Hs. simpl. rewrite Hd.
  reflexivity.
Qed.

(** The icon arrives and decodes: it is stored and shown. *)
Lemma load_icon_shown (p : str) (r : Response) (s : Run) :
  nonempty p = true ->
  requests_get w (with_scheme p) [] = inr r ->
  status_error r = None ->
  image_data_ok w (b64encode (content r)) = true ->
  load_icon w (JStr p) s =
    (inr tt, {| app := with_icon (Some {| data := b64encode (content r) |}) (app s);
                trace := trace s ++ [icon_request (with_scheme p)] |}).
Proof.
  intros Hp H Hs Hd. unfold load_icon, icon_url_of. unfold bind at 1, lift.
  rewrite (with_scheme_nonempty p Hp).
  unfold_steps. simpl. rewrite H. simpl. rewrite Hs. simpl. rewrite Hd.
  reflexivity.
Qed.

(** Whatever the icon path and the world, the icon step started with no
    icon ends with the two icon references equal, holding nothing or the
    image made from a response to a request of this step; it never touches
    the entry or the result text. *)
Lemma load_icon_fresh (v : json) (s : Run) :
  icon_image (app s) = None ->
  icon_label_image (app s) = None ->
  let s' := snd (load_icon w v s) in
  icon_label_image (app s') = icon_image (app s')
  /\ (icon_image (app s') = None
      \/ exists url r,
           requests_get w url [] = inr r
           /\ icon_image (app s') = Some {| data := b64encode (content r) |})
  /\ result_var (app s') = result_var (app s)
  /\ location_entry (app s') = location_entry (app s).
Proof.
  intros Hi Hl. unfold load_icon, icon_url_of.
  destruct v as [| | | |p| |]; unfold_steps; simpl;
    try (rewrite ?Hi, ?Hl; repeat split; now auto).
  destruct (nonempty (with_scheme p)); simpl;
    [|rewrite ?Hi, ?Hl; repeat split; now auto].
  destruct (requests_get w (with_scheme p) []) as [e|r] eqn:H; simpl;
    [destruct e; simpl; rewrite ?Hi, ?Hl; repeat split; now auto|].
  destruct (status_error r); simpl; [repeat split; now auto|].
  destruct (image_data_ok w (b64encode (content r))); simpl.
  - repeat split; auto. right. now exists (with_scheme p), r.
  - rewrite ?Hi, ?Hl. repeat split; now auto.
Qed.

(** The last step on a defined location line. *)
Lemma show_details_sets (location line : str) (f : Fields) (s : Run) :
  location_line_of f = inr line ->
  show_details w location f s =
    (inr tt, {| app := with_result (join [10] (details w location line f)) (app s);
                trace := trace s |}).
Proof.
  intros H. unfold show_details. unfold_steps. rewrite H. reflexivity.
Qed.

(** The last step changes no icon reference, raising or not. *)
Lemma show_details_icons (location : str) (f : Fields) (s : Run) :
  let s' := snd (show_details w location f s) in
  icon_image (app s') = icon_image (app s)
  /\ icon_label_image (app s') = icon_label_image (app s).
Proof.
  unfold show_details. unfold_steps.
  destruct (location_line_of f); simpl; auto.
Qed.

End IconStep.

(** ** After a successful primary request *)

Section Success.

Variable w : World.

Lemma get_weather_success (a : WeatherApp) (tr : list event) (data : json) :
  nonempty (strip (location_entry a)) = true ->
  nonempty (API_KEY w) = true ->
  primary_success w (strip (location_entry a)) data ->
  get_weather w {| app := a; trace := tr |} =
    display w (strip (location_entry a)) data (cleared w a tr).
Proof.
  intros Hl Hk Hs. unfold get_weather, bind at 1, entry_get. simpl.
  rewrite Hl, Hk. simpl.
  unfold bind at 1. rewrite (try_fetch_weather_success _ _ _ _ Hs).
  reflexivity.
Qed.

Lemma display_conforms (location : str) (data : json) (s : Run) :
  conforms data = true ->
  display w location data s =
    (load_icon w (icon_path (fields_of location data)) ;;
     show_details w location (fields_of location data)) s.
Proof.
  intros H. unfold display. unfold bind at 1, lift.
  now rewrite (extract_fields_conforms location data H).
Qed.


(** The icon arrives and decodes: the five lines and the new icon. *)
Lemma weather_with_icon
    (a : WeatherApp) (tr : list event) (data : json) (p : str) (r : Response) :
  nonempty (strip (location_entry a)) = true ->
  nonempty (API_KEY w) = true ->
  primary_success w (strip (location_entry a)) data ->
  conforms data = true ->
  member_at k_icon data = Some (JStr p) ->
  nonempty p = true ->
  requests_get w (with_scheme p) [] = inr r ->
  status_error r = None ->
  image_data_ok w (b64encode (content r)) = true ->
  exists line,
    location_line_of (fields_of (strip (location_entry a)) data) = inr line
    /\ get_weather w {| app := a; trace := tr |} =
         (inr tt,
          {| app := with_icon (Some {| data := b64encode (content r) |})
                      (with_result
                         (join [10]
                            (details w (strip (location_entry a)) line
                               (fields_of (strip (location_entry a)) data))) a);
             trace := tr ++ [primary_request w (strip (location_entry a));
                             icon_request (with_scheme p)] |}).
Proof.
  intros Hl Hk Hs Hc Hi Hp Hr Hst Hd.
  destruct (location_line_conforms (strip (location_entry a)) data Hc) as [line Hline].
  exists line. split; [exact Hline|].
  rewrite (get_weather_success a tr data Hl Hk Hs), (display_conforms _ _ _ Hc).
  rewrite (icon_path_present _ _ _ Hi Hp).
  unfold bind at 1. rewrite (load_icon_shown w p r _ Hp Hr Hst Hd).
  rewrite (show_details_sets w _ line _ _ Hline).
  unfold cleared. tidy. now rewrite <- app_assoc.
Qed.

(** The icon arrives and does not decode: [get_weather] raises [TclError]
    with the icon cleared and the result text of the previous query still
    in place. *)
Lemma icon_decode_failure_escapes
    (a : WeatherApp) (tr : list event) (data : json) (p : str) :
  nonempty (strip (location_entry a)) = true ->
  nonempty (API_KEY w) = true ->
  primary_success w (strip (location_entry a)) data ->
  conforms data = true ->
  member_at k_icon data = Some (JStr p) ->
  nonempty p = true ->
  icon_decode_failure w (with_scheme p) ->
  get_weather w {| app := a; trace := tr |} =
    (inl TclError,
     {| app := with_icon None a;
        trace := tr ++ [primary_request w (strip (location_entry a));
                        icon_request (with_scheme p)] |}).
Proof.
  intros Hl Hk Hs Hc Hi Hp Hf.
  rewrite (get_weather_success a tr data Hl Hk Hs), (display_conforms _ _ _ Hc).
  rewrite (icon_path_present _ _ _ Hi Hp).
  unfold bind at 1. rewrite (load_icon_decode_failure w p _ Hp Hf).
  unfold cleared. tidy. now rewrite <- app_assoc.
Qed.

End Success.

(** ** Extraction on any body *)

(** Whenever the extraction returns, the icon path it yields is the body's
    [current.condition.icon] member, or the empty string when that member
    is missing or falsy. *)
Lemma extract_icon_path (location : str) (data : json) (f : Fields) :
  extract_fields location data = inr f ->
  icon_path f = py_or (get_or (member_at k_icon data) (JStr [])) (JStr []).
Proof.
  intros H. destruct data as [| | | | | |d]; try discriminate.
  unfold extract_fields in H. unfold k_icon. cbn [member_at member].
  cbn [dict_get and_then] in H.
  destruct (assoc (lit "current") d) as [[| | | | | |c]|];
    destruct (assoc (lit "location") d) as [[| | | | | |l]|];
    cbn [dict_get and_then] in H; try discriminate; cbn [member];
    try (injection H as <-; reflexivity).
  all: destruct (assoc (lit "condition") c) as [k|]; cbn [member];
    try (cbn [dict_get and_then] in H; injection H as <-; reflexivity).
  all: unfold py_or in H at 1 2; destruct (truthy k) eqn:T.
  all: try (destruct k as [| | | | | |k]; cbn [dict_get and_then] in H;
            try discriminate;
            injection H as <-; cbn [icon_path member];
            now rewrite option_eta).
  all: assert (E : member (lit "icon") k = None)
    by (destruct k as [| | | | | |[|]]; simpl in T; try discriminate;
        reflexivity).
  all: rewrite option_eta, E; simpl in H; injection H as <-; reflexivity.
Qed.

Lemma under_null_is_absent (key : str) (data : json) :
  absent_or is_null (member_at k_condition data) = true ->
  member_at (k_condition ++ [key]) data = None.
Proof.
  intros H. rewrite member_at_app.
  destruct (member_at k_condition data) as [[| | | | | |]|];
    try discriminate; reflexivity.
Qed.

(** ** Missing fields *)

Section Condition.

Variable w : World.

(** C10. After a successful primary request, whatever the body and
    whatever happens next, the state [get_weather] leaves has both icon
    references equal, and they hold nothing or the image decoded from a
    response fetched during this call: never the icon of an earlier query.
    When the body has no icon path they hold nothing. *)
Theorem stale_icon_is_cleared
    (a : WeatherApp) (tr : list event) (data : json) :
  nonempty (strip (location_entry a)) = true ->
  nonempty (API_KEY w) = true ->
  primary_success w (strip (location_entry a)) data ->
  let s' := snd (get_weather w {| app := a; trace := tr |}) in
  icon_label_image (app s') = icon_image (app s')
  /\ (icon_image (app s') = None
      \/ exists url r,
           requests_get w url [] = inr r
           /\ icon_image (app s') = Some {| data := b64encode (content r) |})
  /\ (absent_or falsy (member_at k_icon data) = true ->
      icon_image (app s') = None).
Proof.
  intros Hl Hk Hs. rewrite (get_weather_success w a tr data Hl Hk Hs).
  unfold display. unfold bind at 1, lift.
  destruct (extract_fields (strip (location_entry a)) data) as [e|f] eqn:E.
  - cbn. auto.
  - pose proof (load_icon_fresh w (icon_path f) (cleared w a tr) eq_refl eq_refl)
      as (Heq & Hfresh & _).
    pose proof (show_details_icons w (strip (location_entry a)) f
                  (snd (load_icon w (icon_path f) (cleared w a tr))))
      as (Hi & Hlab).
    assert (Hnone : absent_or falsy (member_at k_icon data) = true ->
                    load_icon w (icon_path f) (cleared w a tr)
                    = (inr tt, cleared w a tr)).
    { intros Habs. rewrite (extract_icon_path _ _ _ E).
      destruct (member_at k_icon data) as [v|]; cbn [absent_or get_or] in *;
        [|reflexivity].
      unfold py_or. unfold falsy in Habs.
      destruct (truthy v); [discriminate | reflexivity]. }
    unfold bind.
    destruct (load_icon w (icon_path f) (cleared w a tr)) as [[e|[]] s1] eqn:L;
      cbn [snd] in *.
    + repeat split; [exact Heq | exact Hfresh |].
      intros Habs. specialize (Hnone Habs). discriminate.
    + rewrite Hi, Hlab. repeat split; [exact Heq | exact Hfresh |].
      intros Habs. specialize (Hnone Habs). injection Hnone as ->. reflexivity.
Qed.

End Condition.

(** ** Formatting *)

Section Formatting.

Variable w : World.

(** With name, region and country non-empty strings the result text is
    the five-line string of the interface: the location line, then
    condition, temperature with feels-like, humidity and wind. *)
Lemma five_lines (location n r c : str) (f : Fields) :
  name f = JStr n -> region f = JStr r -> country f = JStr c ->
  nonempty n = true -> nonempty r = true -> nonempty c = true ->
  location_line_of f = inr (n ++ lit ", " ++ r ++ lit ", " ++ c)
  /\ join [10] (details w location (n ++ lit ", " ++ r ++ lit ", " ++ c) f) =
       (n ++ lit ", " ++ r ++ lit ", " ++ c) ++ [10]
       ++ (lit "Condition: " ++ py_str w (cond_text f)) ++ [10]
       ++ (lit "Temperature: " ++ py_str w (temp_c f) ++ degree
           ++ lit "C (feels like " ++ py_str w (feelslike_c f) ++ degree
           ++ lit "C)") ++ [10]
       ++ (lit "Humidity: " ++ py_str w (humidity f) ++ lit "%") ++ [10]
       ++ (lit "Wind: " ++ py_str w (wind_kph f) ++ lit " kph").
Proof.
  intros Hn Hr Hc Nn Nr Nc. split.
  - unfold location_line_of, str_join, filter_truthy.
    rewrite Hn, Hr, Hc. cbn [filter truthy]. rewrite Nn, Nr, Nc. reflexivity.
  - unfold details. destruct n; [discriminate|]. reflexivity.
Qed.

(** Without a name in the body the query stands in for it; when region
    and country are missing or empty too, the first line is the query. *)
Lemma query_is_first_line (location : str) (f : Fields) :
  nonempty location = true ->
  name f = JStr location ->
  truthy (region f) = false -> truthy (country f) = false ->
  location_line_of f = inr location
  /\ nth 0 (details w location location f) [] = location.
Proof.
  intros Nl Hn Hr Hc. split.
  - unfold location_line_of, str_join, filter_truthy.
    rewrite Hn. cbn [filter truthy]. rewrite Nl, Hr, Hc. reflexivity.
  - unfold details. cbn [nth]. now destruct (nonempty location).
Qed.

End Formatting.

(** ** The sample session, run *)

Import Sample.

(** With a working Tk the sample body is displayed in full. *)
Example london_displayed :
  get_weather (world (lit "k3y") (inr (reply london)) (inr png) true)
    (start (lit " London "))
  = (inr tt,
     {| app := with_icon (Some {| data := lit "iVBORw0KGgo=" |})
                 (with_result london_text (init (lit " London ")));
        trace := [ HttpGet API_URL
                     [(lit "key", lit "k3y"); (lit "q", lit "London");
                      (lit "aqi", lit "no")] 10;
                   HttpGet icon_url [] 10 ] |}).
Proof. vm_compute. reflexivity. Qed.

(** C1 at an input where the code departs from it. The body has every
    field, the icon bytes arrive, and Tk does not recognise them:
    [get_weather] raises [TclError] and the result text is still the one it
    started with, not the five lines. *)
Theorem all_fields_undecodable_icon :
  get_weather (world (lit "k3y") (inr (reply london)) (inr png) false)
    (start (lit " London "))
  = (inl TclError,
     {| app := init (lit " London ");
        trace := [ primary_request
                     (world (lit "k3y") (inr (reply london)) (inr png) false)
                     (lit "London");
                   icon_request icon_url ] |})
  /\ result_var (init (lit " London ")) <> london_text.
Proof. split; [vm_compute; reflexivity | discriminate]. Qed.

(** C7 at an input where the code departs from it. An earlier result and
    icon are on display; the new icon does not decode. The icon is cleared,
    but [get_weather] raises [TclError] instead of returning, and the result
    text is still the earlier query's. *)
Theorem undecodable_icon_raises :
  get_weather (world (lit "k3y") (inr (reply icon_only)) (inr png) false)
    {| app := earlier; trace := [] |}
  = (inl TclError,
     {| app := with_icon None earlier;
        trace := [ primary_request
                     (world (lit "k3y") (inr (reply icon_only)) (inr png) false)
                     (lit "London");
                   icon_request icon_url ] |})
  /\ result_var (with_icon None earlier) = lit "Paris, Ile-de-France, France".
Proof. split; [vm_compute; reflexivity | reflexivity]. Qed.

(** C9 at an input where the code departs from it. The body has no name,
    region or country, so the first line should be the query "Tromso"; the
    icon does not decode, [get_weather] raises, and the text on display
    still begins with the earlier query's line. *)
Theorem nameless_undecodable_icon :
  get_weather (world (lit "k3y") (inr (reply icon_only)) (inr png) false)
    {| app := with_result (lit "Paris, Ile-de-France, France")
                (init (lit "Tromso"));
       trace := [] |}
  = (inl TclError,
     {| app := with_result (lit "Paris, Ile-de-France, France")
                 (init (lit "Tromso"));
        trace := [ primary_request
                     (world (lit "k3y") (inr (reply icon_only)) (inr png) false)
                     (lit "Tromso");
                   icon_request icon_url ] |})
  /\ startswith (lit "Paris, Ile-de-France, France") (lit "Tromso") = false.
Proof. split; vm_compute; reflexivity. Qed.

(** C6 as stated fails. On a body whose [current] is null the temperature
    is absent and nothing is extracted: the extraction raises. The empty
    object lacks the location name, region and country; for the query
    "Paris" they are extracted as "Paris", "" and "", none of which is "?"
    or "Unknown". *)
Lemma absent_name_is_not_question_mark :
  (member_at k_temp_c null_current = None
   /\ extract_fields (lit "Paris") null_current = inl AttributeError)
  /\ member_at k_name (JObj []) = None
  /\ member_at k_region (JObj []) = None
  /\ member_at k_country (JObj []) = None
  /\ exists f,
       extract_fields (lit "Paris") (JObj []) = inr f
       /\ name f = JStr (lit "Paris")
       /\ region f = JStr []
       /\ country f = JStr []
       /\ name f <> JStr (lit "?") /\ name f <> JStr (lit "Unknown")
       /\ region f <> JStr (lit "?") /\ region f <> JStr (lit "Unknown")
       /\ country f <> JStr (lit "?") /\ country f <> JStr (lit "Unknown").
Proof.
  split; [split; reflexivity|].
  repeat split; try reflexivity.
  eexists. split; [reflexivity|].
  repeat split; try reflexivity; discriminate.
Qed.

(** ** The theorems at the sample session *)

(** C2 on an entry of four kinds of whitespace. *)
Lemma blank_location_witness :
  forallb isspace blank = true
  /\ (get_weather (world (lit "k3y") (inr (reply london)) (inr png) true)
        {| app := earlier_with blank; trace := [] |}
      = (inr tt, {| app := earlier_with blank; trace := [] ++ [dialog] |})
      /\ filter is_http ([] ++ [dialog]) = filter is_http []).
Proof.
  split; [reflexivity|].
  apply (blank_location_shows_dialog_only
           (world (lit "k3y") (inr (reply london)) (inr png) true)
           (earlier_with blank) []).
  reflexivity.
Defined.

(** C3 with the key of a missing [api_config]. *)
Lemma missing_key_witness :
  nonempty (strip (location_entry earlier)) = true
  /\ API_KEY (world [] (inr (reply london)) (inr png) true) = []
  /\ get_weather (world [] (inr (reply london)) (inr png) true)
       {| app := earlier; trace := [] |}
     = (inr tt, {| app := with_result guidance earlier; trace := [] |}).
Proof.
  split; [reflexivity|]. split; [reflexivity|].
  apply (missing_key_shows_guidance
           (world [] (inr (reply london)) (inr png) true) earlier []);
    reflexivity.
Defined.

(** C4 on a timeout of the primary request. *)
Lemma primary_failure_witness :
  nonempty (strip (location_entry earlier)) = true
  /\ nonempty (API_KEY (world (lit "k3y") timed_out (inr png) true)) = true
  /\ get_weather (world (lit "k3y") timed_out (inr png) true)
       {| app := earlier; trace := [] |}
     = (inr tt,
        {| app := with_icon None
                    (with_result
                       (lit "Error fetching weather data: "
                        ++ lit "Read timed out.") earlier);
           trace := [] ++ [primary_request
                             (world (lit "k3y") timed_out (inr png) true)
                             (strip (location_entry earlier))] |}).
Proof.
  split; [reflexivity|]. split; [reflexivity|].
  apply (primary_failure_is_reported
           (world (lit "k3y") timed_out (inr png) true) earlier []
           (lit "Read timed out.")); try reflexivity.
  apply transport_failure. reflexivity.
Defined.

(** C10 with an earlier icon on display and a body without icon path. *)
Lemma stale_icon_witness :
  icon_image earlier = Some {| data := lit "R0lGODlh" |}
  /\ absent_or falsy (member_at k_icon no_condition) = true
  /\ icon_image
       (app (snd (get_weather
                    (world (lit "k3y") (inr (reply no_condition)) timed_out true)
                    {| app := earlier; trace := [] |}))) = None
  /\ icon_label_image
       (app (snd (get_weather
                    (world (lit "k3y") (inr (reply no_condition)) timed_out true)
                    {| app := earlier; trace := [] |}))) = None.
Proof.
  split; [reflexivity|]. split; [reflexivity|].
  destruct (stale_icon_is_cleared
              (world (lit "k3y") (inr (reply no_condition)) timed_out true)
              earlier [] no_condition)
    as (Hsame & _ & Hnone); try reflexivity.
  - apply (body_parsed _ _ _ (reply no_condition)); reflexivity.
  - split; [exact (Hnone eq_refl)|].
    rewrite Hsame. exact (Hnone eq_refl).
Defined.

(** ** Further properties of the handler *)

(** *** The text sent as the query *)

Lemma lstrip_split (s : str) :
  exists pre, s = pre ++ lstrip s /\ forallb isspace pre = true.
Proof.
  induction s as [|c s (pre & E & B)]; [now exists []|].
  simpl. destruct (isspace c) eqn:Hc.
  - exists (c :: pre). simpl. rewrite Hc, B. split; [now f_equal | reflexivity].
  - now exists [].
Qed.

Lemma rstrip_split (s : str) :
  exists post, s = rstrip s ++ post /\ forallb isspace post = true.
Proof.
  unfold rstrip. destruct (lstrip_split (rev s)) as (pre & E & B).
  exists (rev pre). split.
  - rewrite <- rev_app_distr, <- E. symmetry. apply rev_involutive.
  - rewrite forallb_forall in *. intros x Hx. apply B. now apply in_rev.
Qed.

Lemma lstrip_keeps_last (l : str) (c : char) :
  isspace c = false -> exists u, lstrip (l ++ [c]) = u ++ [c].
Proof.
  intros Hc. induction l as [|d l (u & E)]; simpl.
  - rewrite Hc. now exists [].
  - destruct (isspace d); [now exists u | now exists (d :: l)].
Qed.

Lemma strip_ends (s : str) :
  strip s = []
  \/ exists c t d u, strip s = c :: t /\ strip s = u ++ [d]
                     /\ isspace c = false /\ isspace d = false.
Proof.
  unfold strip, rstrip.
  destruct (lstrip_head s) as [E | (c & t & E & Hc)]; [left; now rewrite E|].
  right. rewrite E.
  assert (R : rev (c :: t) = rev t ++ [c]) by reflexivity. rewrite R.
  destruct (lstrip_keeps_last (rev t) c Hc) as (u & Eu).
  destruct (lstrip_head (rev t ++ [c])) as [E0 | (d & v & Ed & Hd)].
  - rewrite E0 in Eu. now destruct u.
  - exists c, (rev u), d, (rev v). rewrite Ed at 2. rewrite Eu.
    rewrite rev_app_distr. simpl. repeat split; assumption.
Qed.

Section MoreOnHandler.

Variable w : World.

(** When the primary request is made, its [q] parameter is the typed text
    with whitespace taken off both ends and nothing else: the text is
    blanks, then the parameter, then blanks, and the parameter neither
    starts nor ends with whitespace. *)
Theorem query_is_trimmed_text (a : WeatherApp) :
  nonempty (strip (location_entry a)) = true ->
  exists q pre post c t d u,
    query_params w (strip (location_entry a))
      = [(lit "key", API_KEY w); (lit "q", q); (lit "aqi", lit "no")]
    /\ location_entry a = pre ++ q ++ post
    /\ forallb isspace pre = true /\ forallb isspace post = true
    /\ q = c :: t /\ q = u ++ [d]
    /\ isspace c = false /\ isspace d = false.
Proof.
  intros Hn.
  destruct (lstrip_split (location_entry a)) as (pre & Epre & Bpre).
  destruct (rstrip_split (lstrip (location_entry a))) as (post & Epost & Bpost).
  destruct (strip_ends (location_entry a)) as [E | (c & t & d & u & E1 & E2 & Hc & Hd)].
  - rewrite E in Hn. discriminate.
  - exists (strip (location_entry a)), pre, post, c, t, d, u.
    repeat split; try assumption.
    unfold strip. now rewrite <- Epost.
Qed.

Lemma with_scheme_not_relative (s : str) :
  startswith (with_scheme s) (lit "//") = false.
Proof.
  unfold with_scheme.
  destruct (startswith s (lit "//")) eqn:E; [reflexivity | exact E].
Qed.


End MoreOnHandler.

(** *** What a run can change *)

Lemma apply_unchanged (a : WeatherApp) : apply_change unchanged a = a.
Proof. now destruct a. Qed.

Section Changes.

Variable w : World.

(** The icon step, as a change: it depends on the world and the icon
    path only, touches the icon references only, and requests at most one
    URL, never a protocol-relative one. *)
Lemma load_icon_change (v : json) :
  exists r ico t,
    (forall s, load_icon w v s =
       (r, {| app := apply_change {| new_text := None; new_icon := ico |} (app s);
              trace := trace s ++ t |}))
    /\ (t = [] \/ exists p, nonempty p = true /\ t = [icon_request (with_scheme p)]).
Proof.
  destruct v as [| | | |p| |];
    try (exists (inl AttributeError), None, []; split; [|now left];
         intros [a tr]; unfold load_icon; unfold_steps; simpl;
         rewrite app_nil_r; now destruct a).
  destruct (nonempty (with_scheme p)) eqn:N.
  - assert (Np : nonempty p = true).
    { destruct p; [discriminate N | reflexivity]. }
    destruct (requests_get w (with_scheme p) []) as [msg|r] eqn:G;
      [|destruct (status_error r) as [msg|] eqn:St;
        [|destruct (image_data_ok w (b64encode (content r))) eqn:D]].
    + destruct msg as [msg| | | | | |];
        [exists (inr tt), (Some None), [icon_request (with_scheme p)]
        |exists (inl AttributeError), None, [icon_request (with_scheme p)]
        |exists (inl TypeError), None, [icon_request (with_scheme p)]
        |exists (inl TclError), None, [icon_request (with_scheme p)]
        |exists (inl LocationParseError), None, [icon_request (with_scheme p)]
        |exists (inl ValueError), None, [icon_request (with_scheme p)]
        |exists (inl RecursionError), None, [icon_request (with_scheme p)]];
        (split; [|right; now exists p]);
        intros [a tr]; unfold load_icon, icon_url_of; unfold_steps; simpl;
        rewrite N; simpl; rewrite G; simpl; try reflexivity; now destruct a.
    + exists (inr tt), (Some None), [icon_request (with_scheme p)].
      split; [|right; now exists p].
      intros [a tr]. unfold load_icon, icon_url_of. unfold_steps. simpl.
      rewrite N. simpl. rewrite G. simpl. rewrite St. reflexivity.
    + exists (inr tt), (Some (Some {| data := b64encode (content r) |})),
        [icon_request (with_scheme p)].
      split; [|right; now exists p].
      intros [a tr]. unfold load_icon, icon_url_of. unfold_steps. simpl.
      rewrite N. simpl. rewrite G. simpl. rewrite St. simpl. rewrite D.
      reflexivity.
    + exists (inl TclError), None, [icon_request (with_scheme p)].
      split; [|right; now exists p].
      intros [a tr]. unfold load_icon, icon_url_of. unfold_steps. simpl.
      rewrite N. simpl. rewrite G. simpl. rewrite St. simpl. rewrite D.
      simpl. now destruct a.
  - exists (inr tt), None, []. split; [|now left].
    intros [a tr]. unfold load_icon, icon_url_of. unfold_steps. simpl.
    rewrite N. simpl. rewrite app_nil_r. now destruct a.
Qed.

(** The last step, as a change: the result text or nothing. *)
Lemma show_details_change (location : str) (f : Fields) :
  exists r txt,
    forall s, show_details w location f s =
      (r, {| app := apply_change {| new_text := txt; new_icon := None |} (app s);
             trace := trace s |}).
Proof.
  unfold show_details. unfold_steps.
  destruct (location_line_of f) as [e|line].
  - exists (inl e), None. intros [a tr]. simpl. now destruct a.
  - now exists (inr tt), (Some (join [10] (details w location line f))).
Qed.

(** The steps after the clearing, as a change to the state before the
    clearing: the icon references are always replaced. *)
Lemma display_change (location : str) (data : json) :
  exists r txt ico t,
    (forall a tr,
       display w location data
         {| app := with_icon None a; trace := tr |} =
       (r, {| app := apply_change {| new_text := txt; new_icon := Some ico |} a;
              trace := tr ++ t |}))
    /\ (t = [] \/ exists p, nonempty p = true /\ t = [icon_request (with_scheme p)]).
Proof.
  unfold display. unfold bind at 1, lift.
  destruct (extract_fields location data) as [e|f].
  - exists (inl e), None, None, []. split; [|now left].
    intros a tr. now rewrite app_nil_r.
  - destruct (load_icon_change (icon_path f)) as (r1 & ico & t & Hload & Ht).
    destruct (show_details_change location f) as (r2 & txt & Hshow).
    destruct r1 as [e|[]].
    + exists (inl e), None, (match ico with Some i => i | None => None end), t.
      split; [|exact Ht].
      intros a tr. unfold bind. rewrite Hload. simpl. now destruct ico.
    + exists r2, txt, (match ico with Some i => i | None => None end), t.
      split; [|exact Ht].
      intros a tr. unfold bind. rewrite Hload, Hshow. simpl.
      destruct ico, txt, r2; reflexivity.
Qed.

End Changes.

Lemma apply_change_twice (ch : change) (a : WeatherApp) :
  apply_change ch (apply_change ch a) = apply_change ch a.
Proof. destruct ch as [[t|] [i|]]; reflexivity. Qed.

Section Runs.

Variable w : World.

(** A run, as a change: outcome, change and outside effects are fixed by
    the world and the typed text; the effects are the dialog for a blank
    text, nothing without a key, and otherwise the primary request followed
    by at most one request for an icon at an absolute URL. *)
Lemma get_weather_change (entry : str) :
  exists r ch t,
    (forall a tr,
       location_entry a = entry ->
       get_weather w {| app := a; trace := tr |} =
         (r, {| app := apply_change ch a; trace := tr ++ t |}))
    /\ ((forallb isspace entry = true /\ t = [dialog])
        \/ (forallb isspace entry = false /\ API_KEY w = [] /\ t = [])
        \/ (forallb isspace entry = false /\ API_KEY w <> []
            /\ (t = [primary_request w (strip entry)]
                \/ exists p,
                     nonempty p = true
                     /\ t = [primary_request w (strip entry);
                             icon_request (with_scheme p)]))).
Proof.
  destruct (nonempty (strip entry)) eqn:Hl.
  - pose proof (strip_nonempty_not_blank entry Hl) as Hb.
    destruct (nonempty (API_KEY w)) eqn:Hk.
    + assert (Hkey : API_KEY w <> []) by (intros E; rewrite E in Hk; discriminate).
      assert (Fail : forall msg,
                primary_failure w (strip entry) msg ->
                exists r ch t,
                  (forall a tr,
                     location_entry a = entry ->
                     get_weather w {| app := a; trace := tr |} =
                       (r, {| app := apply_change ch a; trace := tr ++ t |}))
                  /\ t = [primary_request w (strip entry)]).
      { intros msg Hf.
        exists (inr tt),
          {| new_text := Some (lit "Error fetching weather data: " ++ msg);
             new_icon := Some None |},
          [primary_request w (strip entry)].
        split; [|reflexivity].
        intros a tr <-.
        unfold get_weather, bind at 1, entry_get. simpl.
        rewrite Hl, Hk. simpl. unfold bind at 1.
        now rewrite (try_fetch_weather_failure w _ msg _ Hf). }
      assert (Escape : forall e,
                (forall s, try_request (fetch_weather w (strip entry)) s =
                   (inl e, {| app := app s;
                              trace := trace s
                                       ++ [primary_request w (strip entry)] |})) ->
                exists r ch t,
                  (forall a tr,
                     location_entry a = entry ->
                     get_weather w {| app := a; trace := tr |} =
                       (r, {| app := apply_change ch a; trace := tr ++ t |}))
                  /\ t = [primary_request w (strip entry)]).
      { intros e He.
        exists (inl e), unchanged, [primary_request w (strip entry)].
        split; [|reflexivity].
        intros a tr <-.
        unfold get_weather, bind at 1, entry_get. simpl.
        rewrite Hl, Hk. simpl. unfold bind at 1. rewrite He. simpl.
        now destruct a. }
      assert (Done : forall r ch t,
                (forall a tr,
                   location_entry a = entry ->
                   get_weather w {| app := a; trace := tr |} =
                     (r, {| app := apply_change ch a; trace := tr ++ t |}))
                /\ t = [primary_request w (strip entry)] ->
                (forall a tr,
                   location_entry a = entry ->
                   get_weather w {| app := a; trace := tr |} =
                     (r, {| app := apply_change ch a; trace := tr ++ t |}))
                /\ ((forallb isspace entry = true /\ t = [dialog])
                    \/ (forallb isspace entry = false /\ API_KEY w = [] /\ t = [])
                    \/ (forallb isspace entry = false /\ API_KEY w <> []
                        /\ (t = [primary_request w (strip entry)]
                            \/ exists p,
                                 nonempty p = true
                                 /\ t = [primary_request w (strip entry);
                                         icon_request (with_scheme p)])))).
      { intros r ch t (H & ->). split; [exact H|]. right. right. now auto. }
      destruct (requests_get w API_URL (query_params w (strip entry)))
        as [e|resp] eqn:G;
        [|destruct (status_error resp) as [msg|] eqn:St;
          [|destruct (json_body resp) as [e|body] eqn:J]].
      * destruct e as [msg| | | | | |];
          [destruct (Fail msg (transport_failure _ _ _ G)) as (r & ch & t & H)
          |destruct (Escape AttributeError) as (r & ch & t & H)
          |destruct (Escape TypeError) as (r & ch & t & H)
          |destruct (Escape TclError) as (r & ch & t & H)
          |destruct (Escape LocationParseError) as (r & ch & t & H)
          |destruct (Escape ValueError) as (r & ch & t & H)
          |destruct (Escape RecursionError) as (r & ch & t & H)];
          try (intros s; unfold_steps; simpl; rewrite G; reflexivity);
          exists r, ch, t; now apply Done.
      * destruct (Fail msg (status_failure _ _ _ resp G St)) as (r & ch & t & H).
        exists r, ch, t. now apply Done.
      * destruct e as [msg| | | | | |];
          [destruct (Fail msg (body_failure _ _ _ resp G St J)) as (r & ch & t & H)
          |destruct (Escape AttributeError) as (r & ch & t & H)
          |destruct (Escape TypeError) as (r & ch & t & H)
          |destruct (Escape TclError) as (r & ch & t & H)
          |destruct (Escape LocationParseError) as (r & ch & t & H)
          |destruct (Escape ValueError) as (r & ch & t & H)
          |destruct (Escape RecursionError) as (r & ch & t & H)];
          try (intros s; unfold_steps; simpl; rewrite G; simpl; rewrite St;
               simpl; rewrite J; reflexivity);
          exists r, ch, t; now apply Done.
      * destruct (display_change w (strip entry) body)
          as (r & txt & ico & t & Hrun & Ht).
        exists r, {| new_text := txt; new_icon := Some ico |},
          (primary_request w (strip entry) :: t).
        split.
        -- intros a tr <-.
           rewrite (get_weather_success w a tr body Hl Hk
                      (body_parsed _ _ _ resp G St J)).
           unfold cleared. rewrite Hrun. now rewrite <- app_assoc.
        -- right. right. repeat split; [assumption..|].
           destruct Ht as [-> | (p & Np & ->)]; [now left | right; now exists p].
    + exists (inr tt), {| new_text := Some guidance; new_icon := None |}, [].
      split.
      * intros a tr <-. unfold get_weather. unfold_steps. simpl.
        rewrite Hl, Hk. simpl. now rewrite app_nil_r.
      * right. left. repeat split; [assumption|].
        now destruct (API_KEY w).
  - assert (Hb : forallb isspace entry = true).
    { apply strip_empty_iff. now destruct (strip entry). }
    exists (inr tt), unchanged, [dialog]. split; [|now left].
    intros a tr <-. unfold get_weather. unfold_steps. simpl.
    rewrite Hl. simpl. now destruct a.
Qed.

(** Whatever happens, [get_weather] leaves the typed text in the entry. *)
Theorem entry_text_is_kept (s : Run) :
  location_entry (app (snd (get_weather w s))) = location_entry (app s).
Proof.
  destruct s as [a tr].
  destruct (get_weather_change (location_entry a)) as (r & ch & t & H & _).
  now rewrite (H a tr eq_refl).
Qed.

(** In an unchanged world a second run displays what the first displayed
    and ends the same way: returning, or raising the same exception. *)
Theorem second_run_changes_nothing (s : Run) :
  app (snd (get_weather w (snd (get_weather w s))))
    = app (snd (get_weather w s))
  /\ fst (get_weather w (snd (get_weather w s))) = fst (get_weather w s).
Proof.
  destruct s as [a tr].
  destruct (get_weather_change (location_entry a)) as (r & ch & t & H & _).
  rewrite (H a tr eq_refl). cbn [snd fst].
  rewrite (H (apply_change ch a) (tr ++ t) eq_refl). cbn [snd fst app].
  split; [apply apply_change_twice | reflexivity].
Qed.

(** The outside effects of one run: the dialog exactly for a blank text;
    no effect at all without a key; otherwise the primary request, then at
    most one more request, which is for an absolute icon URL. Every request
    carries the timeout of 10 seconds. *)
Theorem effects_of_a_run (s : Run) :
  exists t,
    trace (snd (get_weather w s)) = trace s ++ t
    /\ ((forallb isspace (location_entry (app s)) = true /\ t = [dialog])
        \/ (forallb isspace (location_entry (app s)) = false
            /\ API_KEY w = [] /\ t = [])
        \/ (forallb isspace (location_entry (app s)) = false
            /\ API_KEY w <> []
            /\ (t = [HttpGet API_URL
                       (query_params w (strip (location_entry (app s)))) 10]
                \/ exists p,
                     nonempty p = true
                     /\ startswith (with_scheme p) (lit "//") = false
                     /\ t = [HttpGet API_URL
                               (query_params w (strip (location_entry (app s)))) 10;
                             HttpGet (with_scheme p) [] 10]))).
Proof.
  destruct s as [a tr].
  destruct (get_weather_change (location_entry a)) as (r & ch & t & H & Ht).
  exists t. rewrite (H a tr eq_refl). split; [reflexivity|].
  cbn [app].
  destruct Ht as [Hb | [Hk | (Hb & Hk & [-> | (p & Np & ->)])]];
    [now left | right; now left | right; right ..].
  - repeat split; [assumption..|]. now left.
  - repeat split; [assumption..|]. right. exists p.
    repeat split; [assumption | apply with_scheme_not_relative].
Qed.

End Runs.

(** *** Bodies of any shape *)

Lemma extraction_raises_iff_unreadable_aux (location : str) (data : json) :
  if readable data
  then exists f, extract_fields location data = inr f
  else extract_fields location data = inl AttributeError.
Proof.
  unfold readable, extract_fields, k_location, k_current, k_condition.
  destruct data as [| | | | | |d]; try reflexivity.
  cbn [is_dict member_at member andb dict_get and_then].
  destruct (assoc (lit "location") d) as [[| | | | | |l]|];
    destruct (assoc (lit "current") d) as [[| | | | | |c]|];
    cbn [absent_or is_dict andb dict_get and_then member py_or truthy];
    try reflexivity; try (now eexists).
  all: destruct (assoc (lit "condition") c) as [k|];
    cbn [absent_or andb]; try (now eexists).
  all: unfold dict_or_falsy, falsy, py_or; destruct (truthy k) eqn:T;
    destruct k as [| | | | | |k];
    cbn [is_dict orb negb dict_get and_then]; try reflexivity;
    try (now eexists); try discriminate T.
Qed.

(** Extraction raises exactly on the bodies that are not readable, and
    then it is [AttributeError]; on a readable body it returns. *)
Theorem extraction_raises_iff_unreadable (location : str) (data : json) :
  (readable data = false <-> extract_fields location data = inl AttributeError)
  /\ (readable data = true <-> exists f, extract_fields location data = inr f).
Proof.
  pose proof (extraction_raises_iff_unreadable_aux location data) as H.
  destruct (readable data).
  - destruct H as (f & H). split; split.
    + discriminate.
    + rewrite H. discriminate.
    + intros _. now exists f.
    + reflexivity.
  - split; split.
    + intros _. exact H.
    + reflexivity.
    + discriminate.
    + intros (f & Hf). rewrite H in Hf. discriminate.
Qed.

Lemma extract_cond_text (location : str) (data : json) (f : Fields) :
  extract_fields location data = inr f ->
  cond_text f = get_or (member_at k_text data) (JStr (lit "Unknown")).
Proof.
  intros H. destruct data as [| | | | | |d]; try discriminate.
  unfold extract_fields in H. unfold k_text. cbn [member_at member].
  cbn [dict_get and_then] in H.
  destruct (assoc (lit "current") d) as [[| | | | | |c]|];
    destruct (assoc (lit "location") d) as [[| | | | | |l]|];
    cbn [dict_get and_then] in H; try discriminate; cbn [member];
    try (injection H as <-; reflexivity).
  all: destruct (assoc (lit "condition") c) as [k|]; cbn [member];
    try (cbn [dict_get and_then] in H; injection H as <-; reflexivity).
  all: unfold py_or in H at 1 2; destruct (truthy k) eqn:T.
  all: try (destruct k as [| | | | | |k]; cbn [dict_get and_then] in H;
            try discriminate;
            injection H as <-; cbn [cond_text member];
            now rewrite option_eta).
  all: assert (E : member (lit "text") k = None)
    by (destruct k as [| | | | | |[|]]; simpl in T; try discriminate;
        reflexivity).
  all: rewrite option_eta, E; simpl in H; injection H as <-; reflexivity.
Qed.

Lemma under_falsy_is_absent (key : str) (data : json) :
  absent_or falsy (member_at k_condition data) = true ->
  member_at (k_condition ++ [key]) data = None.
Proof.
  intros H. rewrite member_at_app.
  destruct (member_at k_condition data) as [[| | | | | |[|]]|];
    try discriminate; reflexivity.
Qed.

(** The guard [or {}] of line 284 covers every falsy condition, not only
    null: with [false], [0], [""], an empty list or an empty object for
    [condition], the text shown is "Unknown" and no icon is looked for. *)
Theorem falsy_condition_is_missing (location : str) (data : json) (f : Fields) :
  extract_fields location data = inr f ->
  absent_or falsy (member_at k_condition data) = true ->
  cond_text f = JStr (lit "Unknown") /\ icon_path f = JStr [].
Proof.
  intros H Hf. split.
  - rewrite (extract_cond_text _ _ _ H).
    change k_text with (k_condition ++ [lit "text"]).
    now rewrite (under_falsy_is_absent _ _ Hf).
  - rewrite (extract_icon_path _ _ _ H).
    change k_icon with (k_condition ++ [lit "icon"]).
    now rewrite (under_falsy_is_absent _ _ Hf).
Qed.

Lemma strs_of_unjoinable (items : list json) :
  existsb unjoinable items = true ->
  strs_of (filter_truthy items) = inl TypeError.
Proof.
  unfold filter_truthy.
  induction items as [|v items IH]; [discriminate|].
  cbn [existsb filter]. unfold unjoinable at 1.
  destruct v as [|b|z|bits|s| [|i l] | [|m d]];
    cbn [truthy andb negb orb]; try exact IH; try reflexivity.
  - destruct b; [reflexivity | exact IH].
  - destruct (negb (z =? 0)%Z); [reflexivity | exact IH].
  - destruct (negb (N.land bits (N.ones 63) =? 0)); [reflexivity | exact IH].
  - rewrite andb_false_r. cbn [orb]. intros H.
    destruct (nonempty s); [|exact (IH H)].
    cbn [strs_of and_then]. now rewrite (IH H).
Qed.

Section Outcomes.

Variable w : World.

(** A body that is valid JSON but not readable (a list, a string, a null
    [location] or [current], a condition that is a non-empty string) makes
    [get_weather] raise [AttributeError] after the single primary request:
    the icon is cleared and the result text is left as it was. *)
Theorem unreadable_body_raises (a : WeatherApp) (tr : list event) (data : json) :
  nonempty (strip (location_entry a)) = true ->
  nonempty (API_KEY w) = true ->
  primary_success w (strip (location_entry a)) data ->
  readable data = false ->
  get_weather w {| app := a; trace := tr |} =
    (inl AttributeError,
     {| app := with_icon None a;
        trace := tr ++ [primary_request w (strip (location_entry a))] |}).
Proof.
  intros Hl Hk Hs Hr.
  rewrite (get_weather_success w a tr data Hl Hk Hs).
  pose proof (extraction_raises_iff_unreadable_aux (strip (location_entry a)) data) as H.
  rewrite Hr in H. unfold display. unfold bind at 1, lift. now rewrite H.
Qed.

(** A location name, region or country that is neither a string nor
    falsy (a number, say) makes [get_weather] raise [TypeError] at the
    join of line 307; shown here for a body without icon path. Nothing is
    displayed for the query. *)
Theorem unjoinable_name_raises
    (a : WeatherApp) (tr : list event) (data : json) (f : Fields) :
  nonempty (strip (location_entry a)) = true ->
  nonempty (API_KEY w) = true ->
  primary_success w (strip (location_entry a)) data ->
  extract_fields (strip (location_entry a)) data = inr f ->
  icon_path f = JStr [] ->
  existsb unjoinable [name f; region f; country f] = true ->
  get_weather w {| app := a; trace := tr |} =
    (inl TypeError,
     {| app := with_icon None a;
        trace := tr ++ [primary_request w (strip (location_entry a))] |}).
Proof.
  intros Hl Hk Hs Hf Hi Hu.
  rewrite (get_weather_success w a tr data Hl Hk Hs).
  unfold display. unfold bind at 1, lift. rewrite Hf.
  unfold bind at 1. rewrite Hi, load_icon_none.
  unfold show_details, bind, lift, location_line_of, str_join.
  now rewrite (strs_of_unjoinable _ Hu).
Qed.

(** The regular case in full. Every field is present, the three location
    names are non-empty strings, the icon arrives and decodes: the result
    text is exactly the five lines, the icon is stored and shown, and the
    two requests are the only outside effects. *)
Theorem all_fields_and_icon_displayed
    (a : WeatherApp) (tr : list event) (data : json)
    (n r c p : str) (text temp feels hum wind : json) (resp : Response) :
  nonempty (strip (location_entry a)) = true ->
  nonempty (API_KEY w) = true ->
  primary_success w (strip (location_entry a)) data ->
  conforms data = true ->
  member_at k_name data = Some (JStr n) -> nonempty n = true ->
  member_at k_region data = Some (JStr r) -> nonempty r = true ->
  member_at k_country data = Some (JStr c) -> nonempty c = true ->
  member_at k_text data = Some text ->
  member_at k_temp_c data = Some temp ->
  member_at k_feelslike_c data = Some feels ->
  member_at k_humidity data = Some hum ->
  member_at k_wind_kph data = Some wind ->
  member_at k_icon data = Some (JStr p) -> nonempty p = true ->
  requests_get w (with_scheme p) [] = inr resp ->
  status_error resp = None ->
  image_data_ok w (b64encode (content resp)) = true ->
  get_weather w {| app := a; trace := tr |} =
    (inr tt,
     {| app :=
          with_icon (Some {| data := b64encode (content resp) |})
            (with_result
               ((n ++ lit ", " ++ r ++ lit ", " ++ c) ++ [10]
                ++ (lit "Condition: " ++ py_str w text) ++ [10]
                ++ (lit "Temperature: " ++ py_str w temp ++ degree
                    ++ lit "C (feels like " ++ py_str w feels ++ degree
                    ++ lit "C)") ++ [10]
                ++ (lit "Humidity: " ++ py_str w hum ++ lit "%") ++ [10]
                ++ (lit "Wind: " ++ py_str w wind ++ lit " kph")) a);
        trace := tr ++ [primary_request w (strip (location_entry a));
                        icon_request (with_scheme p)] |}).
Proof.
  intros Hl Hk Hs Hc Hn Nn Hr Nr Hco Nc Ht Hte Hfe Hhu Hwi Hi Np Hg Hst Hd.
  destruct (weather_with_icon w a tr data p resp Hl Hk Hs Hc Hi Np Hg Hst Hd)
    as (line & Hline & Hrun).
  rewrite Hrun.
  set (f := fields_of (strip (location_entry a)) data) in *.
  assert (Fn : name f = JStr n) by (unfold f, fields_of; cbn [name]; now rewrite Hn).
  assert (Fr : region f = JStr r) by (unfold f, fields_of; cbn [region]; now rewrite Hr).
  assert (Fc : country f = JStr c) by (unfold f, fields_of; cbn [country]; now rewrite Hco).
  destruct (five_lines w (strip (location_entry a)) n r c f Fn Fr Fc Nn Nr Nc)
    as (Eline & Etext).
  assert (E : line = n ++ lit ", " ++ r ++ lit ", " ++ c) by congruence.
  subst line. rewrite Etext.
  unfold f, fields_of. cbn [cond_text temp_c feelslike_c humidity wind_kph].
  now rewrite Ht, Hte, Hfe, Hhu, Hwi.
Qed.



End Outcomes.

(** ** The rounded widgets: what a redraw leaves *)

Local Open Scope Z_scope.

(** The radius used for drawing is the largest one that is at most the
    configured radius and at most half of each dimension, rounded down. *)
Theorem clamped_is_largest (radius w h : Z) :
  clamped radius w h <= radius
  /\ 2 * clamped radius w h <= w
  /\ 2 * clamped radius w h <= h
  /\ (forall r, r <= radius -> 2 * r <= w -> 2 * r <= h ->
                r <= clamped radius w h).
Proof.
  unfold clamped. repeat split; try intros r Hr Hw Hh;
    Z.div_mod_to_equations; lia.
Qed.

Lemma delete_app (tag : str) (l1 l2 : list polygon) :
  delete tag (l1 ++ l2) = delete tag l1 ++ delete tag l2.
Proof. apply filter_app. Qed.

Lemma delete_delete (tag : str) (l : list polygon) :
  delete tag (delete tag l) = delete tag l.
Proof.
  unfold delete. induction l as [|i l IH]; [reflexivity|].
  simpl. destruct (negb (str_eqb (tags i) tag)) eqn:E; simpl.
  - rewrite E. now f_equal.
  - exact IH.
Qed.

Lemma tagged_delete (tag : str) (l : list polygon) :
  tagged tag (delete tag l) = [].
Proof.
  unfold tagged, delete. induction l as [|i l IH]; [reflexivity|].
  simpl. destruct (str_eqb (tags i) tag) eqn:E; simpl; [exact IH|].
  now rewrite E.
Qed.

Lemma tagged_app (tag : str) (l1 l2 : list polygon) :
  tagged tag (l1 ++ l2) = tagged tag l1 ++ tagged tag l2.
Proof. apply filter_app. Qed.

(** The outline drawn in the box from [(x1, y1)] to [(x2, y2)] goes once
    round it exactly when the radius is not negative and the two corners
    of every side fit next to each other. *)
Lemma outline_goes_round (x1 y1 x2 y2 r : Z) :
  goes_round
    [ x1 + r; y1; x2 - r; y1; x2; y1; x2; y1 + r; x2; y2 - r; x2; y2;
      x2 - r; y2; x1 + r; y2; x1; y2; x1; y2 - r; x1; y1 + r; x1; y1 ] = true
  <-> 0 <= r /\ 2 * r <= x2 - x1 /\ 2 * r <= y2 - y1.
Proof.
  unfold goes_round. cbn [pairs].
  rewrite !andb_true_iff, !Z.leb_le. lia.
Qed.

Section CardSteps.

Import RoundedCard.

(** What [RoundedCard._redraw] leaves on the canvas, whatever was there:
    the polygons that are not tagged "card" untouched and in their order,
    then the shadow, then the card on top of it. *)
Lemma card_redraw_items (c : RoundedCard.t) (e : option Event) :
  items (_redraw e c) =
    delete (lit "card") (items c)
    ++ [ {| points :=
              items_points 6 6 (winfo_width c - 1) (winfo_height c - 1)
                (clamped (radius c) (winfo_width c) (winfo_height c));
            smooth := true; splinesteps := 32;
            fill := shadow_color c; outline := []; tags := lit "card" |};
         {| points :=
              items_points 0 0 (winfo_width c - 6) (winfo_height c - 6)
                (clamped (radius c) (winfo_width c) (winfo_height c));
            smooth := true; splinesteps := 32;
            fill := fg_color c; outline := []; tags := lit "card" |} ].
Proof.
  destruct c.
  cbv [_redraw _rounded_polygon with_items coords_inner items_points
       items winfo_width winfo_height radius shadow_color fg_color padding].
  now rewrite <- app_assoc.
Qed.

Lemma card_redraw_delete (c : RoundedCard.t) (e : option Event) :
  delete (lit "card") (items (_redraw e c)) = delete (lit "card") (items c).
Proof.
  rewrite card_redraw_items, delete_app, delete_delete.
  cbn. apply app_nil_r.
Qed.

(** A redraw changes the polygons and the position of the inner frame,
    nothing else. *)
Lemma card_redraw_state (c : RoundedCard.t) (e : option Event) :
  _redraw e c =
    {| radius := radius c; fg_color := fg_color c;
       shadow_color := shadow_color c; bg_color := bg_color c;
       padding := padding c;
       winfo_width := winfo_width c; winfo_height := winfo_height c;
       req_width := req_width c; req_height := req_height c;
       inner_at := (padding c, padding c);
       items := items (_redraw e c) |}.
Proof. destruct c. reflexivity. Qed.

Lemma card_redraw_twice (c : RoundedCard.t) (e1 e2 : option Event) :
  _redraw e2 (_redraw e1 c) = _redraw e1 c.
Proof.
  rewrite (card_redraw_state (_redraw e1 c) e2).
  rewrite (card_redraw_items (_redraw e1 c) e2), (card_redraw_delete c e1).
  assert (P : radius (_redraw e1 c) = radius c
              /\ fg_color (_redraw e1 c) = fg_color c
              /\ shadow_color (_redraw e1 c) = shadow_color c
              /\ bg_color (_redraw e1 c) = bg_color c
              /\ padding (_redraw e1 c) = padding c
              /\ winfo_width (_redraw e1 c) = winfo_width c
              /\ winfo_height (_redraw e1 c) = winfo_height c
              /\ req_width (_redraw e1 c) = req_width c
              /\ req_height (_redraw e1 c) = req_height c)
    by (destruct c; repeat split; reflexivity).
  destruct P as (-> & -> & -> & -> & -> & -> & -> & -> & ->).
  rewrite (card_redraw_state c e1), (card_redraw_items c e1).
  reflexivity.
Qed.

End CardSteps.

Section Card.

Import RoundedCard.

(** Redrawing never piles polygons up: after any number of redraws the
    canvas holds exactly two polygons tagged "card", the shadow below the
    card, and every other polygon it held before; a second redraw changes
    nothing at all. *)
Theorem card_redraw_settles (c : RoundedCard.t) (e1 e2 : option Event) :
  _redraw e2 (_redraw e1 c) = _redraw e1 c
  /\ (exists shadow card,
        tagged (lit "card") (items (_redraw e1 c)) = [shadow; card]
        /\ fill shadow = shadow_color c /\ fill card = fg_color c)
  /\ delete (lit "card") (items (_redraw e1 c)) = delete (lit "card") (items c).
Proof.
  split; [|split].
  - apply card_redraw_twice.
  - rewrite card_redraw_items, tagged_app, tagged_delete.
    eexists. eexists. split; [reflexivity|]. split; reflexivity.
  - apply card_redraw_delete.
Qed.

(** The clamp of line 69 is taken against the whole canvas, while the two
    outlines are drawn in boxes six and seven pixels smaller. So the card's
    outline goes once round its box exactly when the canvas is at least
    twice the configured radius plus six in both dimensions, and the
    shadow's exactly when it is at least twice the radius plus seven; on a
    smaller canvas the clamped radius still makes the corners overlap. *)
Theorem card_outlines_go_round_iff (c : RoundedCard.t) (e : option Event) :
  exists shadow card,
    tagged (lit "card") (items (_redraw e c)) = [shadow; card]
    /\ (goes_round (points card) = true
        <-> 0 <= radius c /\ 2 * radius c + 6 <= winfo_width c
            /\ 2 * radius c + 6 <= winfo_height c)
    /\ (goes_round (points shadow) = true
        <-> 0 <= radius c /\ 2 * radius c + 7 <= winfo_width c
            /\ 2 * radius c + 7 <= winfo_height c).
Proof.
  rewrite card_redraw_items, tagged_app, tagged_delete.
  eexists. eexists. split; [reflexivity|].
  cbn [points]. unfold items_points. rewrite !outline_goes_round.
  unfold clamped. split; split; intros H; Z.div_mod_to_equations; lia.
Qed.

(** [_resize_to_inner] asks for the size of the content plus the padding
    on every side, puts the content at the padding, and ends in the state
    of a redraw: a redraw called right after it, at the same reported size,
    changes nothing. *)
Theorem card_resize_then_redraw (c : RoundedCard.t) (event : Event) (e : option Event) :
  req_width (_resize_to_inner event c) = width event + 2 * padding c
  /\ req_height (_resize_to_inner event c) = height event + 2 * padding c
  /\ inner_at (_resize_to_inner event c) = (padding c, padding c)
  /\ _redraw e (_resize_to_inner event c) = _resize_to_inner event c
  /\ items (_resize_to_inner event c) = items (_redraw e c).
Proof.
  assert (R : _resize_to_inner event c
              = _redraw e (config (width event + padding c * 2)
                             (height event + padding c * 2) c))
    by (destruct c; reflexivity).
  split; [|split; [|split; [|split]]].
  - rewrite R, card_redraw_state. destruct c. cbn [req_width config]. lia.
  - rewrite R, card_redraw_state. destruct c. cbn [req_height config]. lia.
  - destruct c. reflexivity.
  - rewrite R. apply card_redraw_twice.
  - destruct c. reflexivity.
Qed.

End Card.

Section EntrySteps.

Import RoundedEntry.

Lemma entry_redraw_items (c : RoundedEntry.t) (e : option Event) :
  items (_redraw e c) =
    delete (lit "shape") (items c)
    ++ [ {| points :=
              items_points 4 4 (seen_width c e - 1) (seen_height c e - 1)
                (clamped (radius c) (seen_width c e) (seen_height c e));
            smooth := true; splinesteps := 32;
            fill := shadow_color c; outline := []; tags := lit "shape" |};
         {| points :=
              items_points 0 0 (seen_width c e - 4) (seen_height c e - 4)
                (clamped (radius c) (seen_width c e) (seen_height c e));
            smooth := true; splinesteps := 32;
            fill := input_bg c; outline := []; tags := lit "shape" |} ].
Proof.
  destruct c.
  cbv [_redraw _rounded_polygon with_items coords_entry config items_points
       seen_width seen_height items winfo_width winfo_height radius
       shadow_color input_bg padding].
  now rewrite <- app_assoc.
Qed.

Lemma entry_redraw_delete (c : RoundedEntry.t) (e : option Event) :
  delete (lit "shape") (items (_redraw e c)) = delete (lit "shape") (items c).
Proof.
  rewrite entry_redraw_items, delete_app, delete_delete.
  cbn. apply app_nil_r.
Qed.

(** A redraw changes the polygons, the requested size and the position
    of the text field, nothing else. *)
Lemma entry_redraw_state (c : RoundedEntry.t) (e : option Event) :
  _redraw e c =
    {| radius := radius c; padding := padding c; bg_color := bg_color c;
       input_bg := input_bg c; shadow_color := shadow_color c;
       text_color := text_color c;
       winfo_width := winfo_width c; winfo_height := winfo_height c;
       req_width := seen_width c e; req_height := seen_height c e;
       entry_at :=
         (inject_Z (padding c
                    + clamped (radius c) (seen_width c e) (seen_height c e)),
          (inject_Z (seen_height c e) / 2)%Q);
       items := items (_redraw e c) |}.
Proof. destruct c. reflexivity. Qed.

Lemma entry_redraw_twice (c : RoundedEntry.t) (e : option Event) :
  _redraw e (_redraw e c) = _redraw e c.
Proof.
  rewrite (entry_redraw_state (_redraw e c) e).
  rewrite (entry_redraw_items (_redraw e c) e), (entry_redraw_delete c e).
  assert (P : radius (_redraw e c) = radius c
              /\ padding (_redraw e c) = padding c
              /\ bg_color (_redraw e c) = bg_color c
              /\ input_bg (_redraw e c) = input_bg c
              /\ shadow_color (_redraw e c) = shadow_color c
              /\ text_color (_redraw e c) = text_color c
              /\ winfo_width (_redraw e c) = winfo_width c
              /\ winfo_height (_redraw e c) = winfo_height c
              /\ seen_width (_redraw e c) e = seen_width c e
              /\ seen_height (_redraw e c) e = seen_height c e)
    by (destruct c, e; repeat split; reflexivity).
  destruct P as (-> & -> & -> & -> & -> & -> & -> & -> & -> & ->).
  rewrite (entry_redraw_state c e), (entry_redraw_items c e).
  reflexivity.
Qed.

End EntrySteps.

Section Entry.

Import RoundedEntry.

(** Redrawing the entry for the same size twice is redrawing it once; the
    canvas then holds exactly two polygons tagged "shape", the shadow below
    the input field, every other polygon it held before, and it has been
    configured to the size it was redrawn for. *)
Theorem entry_redraw_settles (c : RoundedEntry.t) (e : option Event) :
  _redraw e (_redraw e c) = _redraw e c
  /\ (exists shadow field,
        tagged (lit "shape") (items (_redraw e c)) = [shadow; field]
        /\ fill shadow = shadow_color c /\ fill field = input_bg c)
  /\ delete (lit "shape") (items (_redraw e c)) = delete (lit "shape") (items c)
  /\ req_width (_redraw e c) = seen_width c e
  /\ req_height (_redraw e c) = seen_height c e.
Proof.
  split; [|split; [|split; [|split]]].
  - apply entry_redraw_twice.
  - rewrite entry_redraw_items, tagged_app, tagged_delete.
    eexists. eexists. split; [reflexivity|]. split; reflexivity.
  - apply entry_redraw_delete.
  - destruct c. reflexivity.
  - destruct c. reflexivity.
Qed.

(** As for the card, with the entry's offset of four: the field's outline
    goes once round its box exactly when the size redrawn for is at least
    twice the configured radius plus four in both dimensions, the shadow's
    exactly when it is at least twice the radius plus five. *)
Theorem entry_outlines_go_round_iff (c : RoundedEntry.t) (e : option Event) :
  exists shadow field,
    tagged (lit "shape") (items (_redraw e c)) = [shadow; field]
    /\ (goes_round (points field) = true
        <-> 0 <= radius c /\ 2 * radius c + 4 <= seen_width c e
            /\ 2 * radius c + 4 <= seen_height c e)
    /\ (goes_round (points shadow) = true
        <-> 0 <= radius c /\ 2 * radius c + 5 <= seen_width c e
            /\ 2 * radius c + 5 <= seen_height c e).
Proof.
  rewrite entry_redraw_items, tagged_app, tagged_delete.
  eexists. eexists. split; [reflexivity|].
  cbn [points]. unfold items_points. rewrite !outline_goes_round.
  unfold clamped. split; split; intros H; Z.div_mod_to_equations; lia.
Qed.

End Entry.

Local Close Scope Z_scope.

(** ** The further properties at the sample session *)

Lemma query_is_trimmed_witness :
  nonempty (strip (lit "  New York ")) = true
  /\ exists pre post,
       lit "  New York " = pre ++ lit "New York" ++ post
       /\ forallb isspace pre = true /\ forallb isspace post = true.
Proof.
  split; [reflexivity|].
  destruct (query_is_trimmed_text (serving london true) (init (lit "  New York ")) eq_refl)
    as (q & pre & post & c & t & d & u & Hq & E & Bpre & Bpost & _).
  assert (Eq : q = lit "New York").
  { cbv in Hq. injection Hq as Hq. rewrite <- Hq. reflexivity. }
  exists pre, post. rewrite <- Eq. repeat split; assumption.
Defined.

Lemma falsy_condition_witness :
  absent_or falsy (member_at k_condition empty_condition) = true
  /\ exists f,
       extract_fields (lit "Oslo") empty_condition = inr f
       /\ cond_text f = JStr (lit "Unknown") /\ icon_path f = JStr [].
Proof.
  split; [reflexivity|].
  eexists. split; [reflexivity|].
  apply (falsy_condition_is_missing (lit "Oslo") empty_condition);
    reflexivity.
Defined.

Lemma unreadable_body_witness :
  readable listed = false
  /\ get_weather (serving listed true) {| app := earlier; trace := [] |} =
       (inl AttributeError,
        {| app := with_icon None earlier;
           trace := [] ++ [primary_request (serving listed true)
                             (strip (location_entry earlier))] |}).
Proof.
  split; [reflexivity|].
  apply (unreadable_body_raises (serving listed true) earlier [] listed);
    try reflexivity.
  apply (body_parsed _ _ _ (reply listed)); reflexivity.
Defined.

Lemma unjoinable_name_witness :
  existsb unjoinable [JInt 5; JStr []; JStr []] = true
  /\ get_weather (serving numbered true) {| app := earlier; trace := [] |} =
       (inl TypeError,
        {| app := with_icon None earlier;
           trace := [] ++ [primary_request (serving numbered true)
                             (strip (location_entry earlier))] |}).
Proof.
  split; [reflexivity|].
  eapply (unjoinable_name_raises (serving numbered true) earlier [] numbered);
    try reflexivity.
  apply (body_parsed _ _ _ (reply numbered)); reflexivity.
Defined.

Lemma all_fields_witness :
  conforms london = true
  /\ get_weather (serving london true) {| app := earlier; trace := [] |} =
       (inr tt,
        {| app := with_icon (Some {| data := b64encode (content png) |})
                    (with_result london_text earlier);
           trace := [] ++ [primary_request (serving london true)
                             (strip (location_entry earlier));
                           icon_request (with_scheme icon_path_116)] |}).
Proof.
  split; [reflexivity|].
  rewrite (all_fields_and_icon_displayed (serving london true) earlier [] london
             (lit "London") (lit "City of London, Greater London")
             (lit "United Kingdom") icon_path_116
             (JStr (lit "Partly cloudy"))
             (JFloat 4625478292286210048) (JFloat 4624915342332788736)
             (JInt 72) (JFloat 4624915342332788736) png);
    try reflexivity.
  apply (body_parsed _ _ _ (reply london)); reflexivity.
Defined.



Lemma icon_decode_failure_witness :
  icon_decode_failure (serving london false) (with_scheme icon_path_116)
  /\ get_weather (serving london false) {| app := earlier; trace := [] |} =
       (inl TclError,
        {| app := with_icon None earlier;
           trace := [] ++ [primary_request (serving london false)
                             (strip (location_entry earlier));
                           icon_request (with_scheme icon_path_116)] |}).
Proof.
  assert (D : icon_decode_failure (serving london false)
                (with_scheme icon_path_116))
    by (apply (icon_not_recognised _ _ png); reflexivity).
  split; [exact D|].
  apply (icon_decode_failure_escapes (serving london false) earlier [] london
           icon_path_116); try reflexivity; [|exact D].
  apply (body_parsed _ _ _ (reply london)); reflexivity.
Defined.

(** ** Readable bodies *)

(** Whenever the extraction returns, every field is the member at its
    path, or the default of its lookup. *)
Lemma extract_is_fields_of (location : str) (data : json) (f : Fields) :
  extract_fields location data = inr f -> f = fields_of location data.
Proof.
  intros H. destruct data as [| | | | | |d]; try discriminate.
  unfold extract_fields in H.
  unfold fields_of, k_name, k_region, k_country, k_temp_c, k_feelslike_c,
    k_humidity, k_wind_kph, k_text, k_icon.
  cbn [member_at member]. cbn [dict_get and_then] in H.
  destruct (assoc (lit "current") d) as [[| | | | | |c]|];
    destruct (assoc (lit "location") d) as [[| | | | | |l]|];
    cbn [dict_get and_then] in H; try discriminate; cbn [member];
    rewrite ?option_eta;
    try (injection H as <-; reflexivity).
  all: destruct (assoc (lit "condition") c) as [k|]; cbn [member];
    try (cbn [dict_get and_then] in H; injection H as <-; reflexivity).
  all: unfold py_or in H at 1 2; destruct (truthy k) eqn:T.
  all: try (destruct k as [| | | | | |k]; cbn [dict_get and_then] in H;
            try discriminate;
            injection H as <-; cbn [member];
            now rewrite ?option_eta).
  all: assert (E1 : member (lit "text") k = None)
    by (destruct k as [| | | | | |[|]]; simpl in T; try discriminate;
        reflexivity).
  all: assert (E2 : member (lit "icon") k = None)
    by (destruct k as [| | | | | |[|]]; simpl in T; try discriminate;
        reflexivity).
  all: rewrite ?option_eta, E1, E2; simpl in H; injection H as <-; reflexivity.
Qed.

Lemma extract_fields_readable (location : str) (data : json) :
  readable data = true ->
  extract_fields location data = inr (fields_of location data).
Proof.
  intros H.
  pose proof (extraction_raises_iff_unreadable_aux location data) as R.
  rewrite H in R. destruct R as (f & Hf).
  now rewrite Hf, (extract_is_fields_of _ _ _ Hf).
Qed.

Lemma joinable_cases (v : json) :
  joinable v = true ->
  (exists s, v = JStr s /\ nonempty s = true)
  \/ (truthy v = false /\ nonempty (str_of v) = false).
Proof.
  unfold joinable, unjoinable.
  destruct v as [|b|z|bits|s|l|d]; cbn [truthy str_of negb andb nonempty];
    try (rewrite andb_true_r, negb_true_iff; intros H; right; now split).
  - intros _. right. now split.
  - intros _. destruct (nonempty s) eqn:N; [left; now exists s | right; now split].
Qed.

(** The location line of joinable fields, and with it the first of the
    five lines, is the first line of the interface. *)
Lemma location_line_joinable (query : str) (f : Fields) :
  joinable (name f) = true -> joinable (region f) = true ->
  joinable (country f) = true ->
  exists line,
    location_line_of f = inr line
    /\ (if nonempty line then line else query)
       = first_line query (str_of (name f)) (str_of (region f))
           (str_of (country f)).
Proof.
  intros Hn Hr Hc. unfold location_line_of, str_join, filter_truthy, first_line.
  destruct (joinable_cases _ Hn) as [(n & -> & Nn) | (Tn & Nn)];
    destruct (joinable_cases _ Hr) as [(r & -> & Nr) | (Tr & Nr)];
    destruct (joinable_cases _ Hc) as [(c & -> & Nc) | (Tc & Nc)];
    cbn [filter truthy str_of]; rewrite ?Nn, ?Nr, ?Nc, ?Tn, ?Tr, ?Tc;
    cbn [strs_of and_then join]; eexists; (split; [reflexivity|]).
  - now destruct n.
  - now destruct n.
  - now destruct n.
  - now rewrite Nn.
  - now destruct r.
  - now rewrite Nr.
  - now rewrite Nc.
  - reflexivity.
Qed.

Lemma joinable_fields (location : str) (data : json) :
  nonempty location = true ->
  joinable_names data = true ->
  joinable (name (fields_of location data)) = true
  /\ joinable (region (fields_of location data)) = true
  /\ joinable (country (fields_of location data)) = true.
Proof.
  intros Nl H. unfold joinable_names in H.
  apply andb_prop in H as [H Hc]. apply andb_prop in H as [Hn Hr].
  unfold fields_of. cbn [name region country].
  destruct (member_at k_name data), (member_at k_region data),
    (member_at k_country data); cbn [get_or absent_or] in *;
    repeat split; try assumption; try reflexivity;
    unfold joinable, unjoinable; cbn [truthy]; now rewrite Nl.
Qed.

(** ** The text on display, spelled out *)

Section Displayed.

Variable w : World.

(** On a readable body with joinable names the last step has a location
    line, and the text it sets is the first line of the interface followed
    by the four lines of condition, temperatures, humidity and wind, each
    value being the member at its path or the default of its lookup. *)
Lemma shown_text (q : str) (data : json) :
  nonempty q = true ->
  joinable_names data = true ->
  exists line,
    location_line_of (fields_of q data) = inr line
    /\ join [10] (details w q line (fields_of q data)) =
         first_line q
           (str_of (get_or (member_at k_name data) (JStr q)))
           (str_of (get_or (member_at k_region data) (JStr [])))
           (str_of (get_or (member_at k_country data) (JStr [])))
         ++ [10]
         ++ (lit "Condition: "
             ++ py_str w (get_or (member_at k_text data) (JStr (lit "Unknown"))))
         ++ [10]
         ++ (lit "Temperature: "
             ++ py_str w (get_or (member_at k_temp_c data) (JStr (lit "?")))
             ++ degree ++ lit "C (feels like "
             ++ py_str w (get_or (member_at k_feelslike_c data) (JStr (lit "?")))
             ++ degree ++ lit "C)")
         ++ [10]
         ++ (lit "Humidity: "
             ++ py_str w (get_or (member_at k_humidity data) (JStr (lit "?")))
             ++ lit "%")
         ++ [10]
         ++ (lit "Wind: "
             ++ py_str w (get_or (member_at k_wind_kph data) (JStr (lit "?")))
             ++ lit " kph").
Proof.
  intros Nq Hj.
  destruct (joinable_fields q data Nq Hj) as (Hn & Hr & Hc).
  destruct (location_line_joinable q _ Hn Hr Hc) as (line & Hline & Hfirst).
  exists line. split; [exact Hline|].
  unfold details. cbn [join]. rewrite Hfirst.
  unfold fields_of.
  cbn [name region country cond_text temp_c feelslike_c humidity wind_kph].
  reflexivity.
Qed.

(** C5, as the code has it. After a successful primary request with a
    readable body whose location names are joinable and whose icon path is
    a non-empty string, when the request for the icon raises a
    [RequestException] (raised by [requests.get], or by [raise_for_status]
    for a status of 400 to 599), [get_weather] returns normally; the result
    text is the first line, then the lines of condition, temperature with
    feels-like, humidity and wind; both icon references are empty; and the
    two requests are the only outside effects: no dialog, no error text. *)
Theorem icon_fetch_failure_is_silent
    (a : WeatherApp) (tr : list event) (data : json) (p : str) :
  nonempty (strip (location_entry a)) = true ->
  nonempty (API_KEY w) = true ->
  primary_success w (strip (location_entry a)) data ->
  readable data = true ->
  joinable_names data = true ->
  member_at k_icon data = Some (JStr p) ->
  nonempty p = true ->
  icon_fetch_failure w (with_scheme p) ->
  get_weather w {| app := a; trace := tr |} =
    (inr tt,
     {| app :=
          with_icon None
            (with_result
               (first_line (strip (location_entry a))
                  (str_of (get_or (member_at k_name data)
                             (JStr (strip (location_entry a)))))
                  (str_of (get_or (member_at k_region data) (JStr [])))
                  (str_of (get_or (member_at k_country data) (JStr [])))
                ++ [10]
                ++ (lit "Condition: "
                    ++ py_str w (get_or (member_at k_text data)
                                   (JStr (lit "Unknown"))))
                ++ [10]
                ++ (lit "Temperature: "
                    ++ py_str w (get_or (member_at k_temp_c data)
                                   (JStr (lit "?")))
                    ++ degree ++ lit "C (feels like "
                    ++ py_str w (get_or (member_at k_feelslike_c data)
                                   (JStr (lit "?")))
                    ++ degree ++ lit "C)")
                ++ [10]
                ++ (lit "Humidity: "
                    ++ py_str w (get_or (member_at k_humidity data)
                                   (JStr (lit "?")))
                    ++ lit "%")
                ++ [10]
                ++ (lit "Wind: "
                    ++ py_str w (get_or (member_at k_wind_kph data)
                                   (JStr (lit "?")))
                    ++ lit " kph")) a);
        trace := tr ++ [primary_request w (strip (location_entry a));
                        icon_request (with_scheme p)] |}).
Proof.
  intros Hl Hk Hs Hr Hj Hi Hp Hf.
  destruct (shown_text (strip (location_entry a)) data Hl Hj)
    as (line & Hline & Htext).
  rewrite (get_weather_success w a tr data Hl Hk Hs).
  unfold display. unfold bind at 1, lift.
  rewrite (extract_fields_readable _ _ Hr).
  rewrite (icon_path_present _ _ _ Hi Hp).
  unfold bind at 1. rewrite (load_icon_fetch_failure w p _ Hp Hf).
  rewrite (show_details_sets w _ line _ _ Hline), Htext.
  unfold cleared. tidy. now rewrite <- (app_assoc tr).
Qed.

(** C8, as the code has it. After a successful primary request with a
    readable body whose location names are joinable and whose [condition]
    member is missing or null, [get_weather] returns normally, requests no
    icon, and sets the result text to the first line, "Condition: Unknown",
    and the lines of temperature, humidity and wind. *)
Theorem missing_condition_is_unknown
    (a : WeatherApp) (tr : list event) (data : json) :
  nonempty (strip (location_entry a)) = true ->
  nonempty (API_KEY w) = true ->
  primary_success w (strip (location_entry a)) data ->
  readable data = true ->
  joinable_names data = true ->
  absent_or is_null (member_at k_condition data) = true ->
  get_weather w {| app := a; trace := tr |} =
    (inr tt,
     {| app :=
          with_icon None
            (with_result
               (first_line (strip (location_entry a))
                  (str_of (get_or (member_at k_name data)
                             (JStr (strip (location_entry a)))))
                  (str_of (get_or (member_at k_region data) (JStr [])))
                  (str_of (get_or (member_at k_country data) (JStr [])))
                ++ [10]
                ++ lit "Condition: Unknown"
                ++ [10]
                ++ (lit "Temperature: "
                    ++ py_str w (get_or (member_at k_temp_c data)
                                   (JStr (lit "?")))
                    ++ degree ++ lit "C (feels like "
                    ++ py_str w (get_or (member_at k_feelslike_c data)
                                   (JStr (lit "?")))
                    ++ degree ++ lit "C)")
                ++ [10]
                ++ (lit "Humidity: "
                    ++ py_str w (get_or (member_at k_humidity data)
                                   (JStr (lit "?")))
                    ++ lit "%")
                ++ [10]
                ++ (lit "Wind: "
                    ++ py_str w (get_or (member_at k_wind_kph data)
                                   (JStr (lit "?")))
                    ++ lit " kph")) a);
        trace := tr ++ [primary_request w (strip (location_entry a))] |}).
Proof.
  intros Hl Hk Hs Hr Hj Hn.
  assert (Hi : member_at k_icon data = None)
    by exact (under_null_is_absent (lit "icon") data Hn).
  assert (Ht : member_at k_text data = None)
    by exact (under_null_is_absent (lit "text") data Hn).
  destruct (shown_text (strip (location_entry a)) data Hl Hj)
    as (line & Hline & Htext).
  rewrite (get_weather_success w a tr data Hl Hk Hs).
  unfold display. unfold bind at 1, lift.
  rewrite (extract_fields_readable _ _ Hr).
  rewrite (icon_path_missing (strip (location_entry a)) data)
    by now rewrite Hi.
  unfold bind at 1. rewrite load_icon_none.
  rewrite (show_details_sets w _ line _ _ Hline), Htext, Ht.
  reflexivity.
Qed.

End Displayed.

(** C6, as the code has it. The extraction returns exactly on the
    readable bodies and raises [AttributeError] on the others; whenever it
    returns, a field the body lacks gets the default of its own [get] call:
    "?" for the two temperatures, humidity and wind speed, "Unknown" for
    the condition text, the trimmed query for the location name, and the
    empty string for region and country. *)
Theorem absent_fields_get_defaults (location : str) (data : json) :
  (readable data = true -> exists f, extract_fields location data = inr f)
  /\ (readable data = false -> extract_fields location data = inl AttributeError)
  /\ (forall f,
        extract_fields location data = inr f ->
        (member_at k_temp_c data = None -> temp_c f = JStr (lit "?"))
        /\ (member_at k_feelslike_c data = None -> feelslike_c f = JStr (lit "?"))
        /\ (member_at k_humidity data = None -> humidity f = JStr (lit "?"))
        /\ (member_at k_wind_kph data = None -> wind_kph f = JStr (lit "?"))
        /\ (member_at k_text data = None -> cond_text f = JStr (lit "Unknown"))
        /\ (member_at k_name data = None -> name f = JStr location)
        /\ (member_at k_region data = None -> region f = JStr [])
        /\ (member_at k_country data = None -> country f = JStr [])).
Proof.
  pose proof (extraction_raises_iff_unreadable_aux location data) as R.
  split; [|split].
  - intros H. now rewrite H in R.
  - intros H. now rewrite H in R.
  - intros f Hf. rewrite (extract_is_fields_of _ _ _ Hf).
    unfold fields_of. cbn [temp_c feelslike_c humidity wind_kph cond_text
                             name region country].
    repeat split; intros ->; reflexivity.
Qed.

(** ** Inputs on which the stated properties fail *)

(** C4 as stated fails. A reply with status 301 and a JSON body passes
    [raise_for_status], which raises for 400 to 599 only: it is displayed
    as weather, with no error text. A body that is not JSON, under a
    requests where [json()] raises a plain [ValueError], makes
    [get_weather] raise it: line 273 does not catch it, and the result text
    and the icon stay as they were. *)
Lemma primary_failures_unreported :
  (status_code moved = 301%Z
   /\ get_weather (world (lit "k3y") (inr moved) timed_out true)
        {| app := earlier_with (lit "Tromso"); trace := [] |}
      = (inr tt,
         {| app := with_icon None
                     (with_result tromso_text (earlier_with (lit "Tromso")));
            trace := [ primary_request
                         (world (lit "k3y") (inr moved) timed_out true)
                         (lit "Tromso") ] |})
   /\ startswith tromso_text (lit "Error fetching weather data:") = false)
  /\ (json_body not_json = inl ValueError
      /\ get_weather (world (lit "k3y") (inr not_json) timed_out true)
           {| app := earlier; trace := [] |}
         = (inl ValueError,
            {| app := earlier;
               trace := [ primary_request
                            (world (lit "k3y") (inr not_json) timed_out true)
                            (lit "London") ] |})).
Proof.
  split; [split; [reflexivity | split; vm_compute; reflexivity]|].
  split; [reflexivity | vm_compute; reflexivity].
Qed.

(** C5 as stated fails. With a location name that is a number the icon
    request times out and the join of line 307 then raises [TypeError]; with
    an icon host that has an empty label [requests.get] raises
    [LocationParseError], which line 303 does not catch. In both runs the
    result text stays the earlier query's. *)
Lemma icon_failures_not_silent :
  get_weather (world (lit "k3y") (inr (reply numbered_icon)) timed_out true)
    {| app := earlier; trace := [] |}
  = (inl TypeError,
     {| app := with_icon None earlier;
        trace := [ primary_request
                     (world (lit "k3y") (inr (reply numbered_icon)) timed_out true)
                     (lit "London");
                   icon_request icon_url ] |})
  /\ get_weather
       (world (lit "k3y") (inr (reply odd_host)) (inl LocationParseError) true)
       {| app := earlier; trace := [] |}
     = (inl LocationParseError,
        {| app := with_icon None earlier;
           trace := [ primary_request
                        (world (lit "k3y") (inr (reply odd_host))
                           (inl LocationParseError) true)
                        (lit "London");
                      icon_request odd_url ] |})
  /\ result_var (with_icon None earlier) = lit "Paris, Ile-de-France, France".
Proof. repeat split; vm_compute; reflexivity. Qed.

(** C8 as stated fails. Neither body has a condition; with a location name
    that is a number [get_weather] raises [TypeError] at the join, with a
    null [current] it raises [AttributeError] at line 284. In both runs the
    result text stays the earlier query's. *)
Lemma missing_condition_can_raise :
  (member_at k_condition numbered = None
   /\ get_weather (serving numbered true) {| app := earlier; trace := [] |}
      = (inl TypeError,
         {| app := with_icon None earlier;
            trace := [ primary_request (serving numbered true) (lit "London") ] |}))
  /\ (member_at k_condition null_current = None
      /\ get_weather (serving null_current true) {| app := earlier; trace := [] |}
         = (inl AttributeError,
            {| app := with_icon None earlier;
               trace := [ primary_request (serving null_current true)
                            (lit "London") ] |}))
  /\ result_var (with_icon None earlier) = lit "Paris, Ile-de-France, France".
Proof. repeat split; vm_compute; reflexivity. Qed.

(** ** The spelled-out theorems at the sample session *)

(** C5 on a timeout of the icon request: the London text, no icon. *)
Lemma icon_fetch_failure_witness :
  readable london = true
  /\ joinable_names london = true
  /\ icon_fetch_failure (world (lit "k3y") (inr (reply london)) timed_out true)
       (with_scheme icon_path_116)
  /\ get_weather (world (lit "k3y") (inr (reply london)) timed_out true)
       {| app := earlier; trace := [] |}
     = (inr tt,
        {| app := with_icon None (with_result london_text earlier);
           trace := [] ++ [primary_request
                             (world (lit "k3y") (inr (reply london)) timed_out true)
                             (strip (location_entry earlier));
                           icon_request (with_scheme icon_path_116)] |}).
Proof.
  assert (F : icon_fetch_failure
                (world (lit "k3y") (inr (reply london)) timed_out true)
                (with_scheme icon_path_116))
    by (apply (icon_transport_failure _ _ (lit "Read timed out.")); reflexivity).
  split; [reflexivity|]. split; [reflexivity|]. split; [exact F|].
  rewrite (icon_fetch_failure_is_silent
             (world (lit "k3y") (inr (reply london)) timed_out true)
             earlier [] london icon_path_116); try reflexivity; [|exact F].
  apply (body_parsed _ _ _ (reply london)); reflexivity.
Defined.

(** C6 on a body whose condition is null and that lacks most fields. *)
Lemma absent_fields_witness :
  readable no_condition = true
  /\ exists f,
       extract_fields (lit "Oslo") no_condition = inr f
       /\ feelslike_c f = JStr (lit "?")
       /\ cond_text f = JStr (lit "Unknown")
       /\ region f = JStr [].
Proof.
  split; [reflexivity|].
  destruct (absent_fields_get_defaults (lit "Oslo") no_condition)
    as (Hret & _ & Hdef).
  destruct (Hret eq_refl) as (f & Hf).
  destruct (Hdef f Hf) as (_ & Hfeels & _ & _ & Htext & _ & Hregion & _).
  exists f. repeat split;
    [exact Hf | exact (Hfeels eq_refl) | exact (Htext eq_refl)
     | exact (Hregion eq_refl)].
Defined.

(** C8 on a body whose condition is null: the Oslo text, one request. *)
Lemma missing_condition_witness :
  readable no_condition = true
  /\ joinable_names no_condition = true
  /\ absent_or is_null (member_at k_condition no_condition) = true
  /\ get_weather (serving no_condition true) {| app := earlier; trace := [] |}
     = (inr tt,
        {| app := with_icon None (with_result oslo_text earlier);
           trace := [] ++ [primary_request (serving no_condition true)
                             (strip (location_entry earlier))] |}).
Proof.
  split; [reflexivity|]. split; [reflexivity|]. split; [reflexivity|].
  rewrite (missing_condition_is_unknown (serving no_condition true)
             earlier [] no_condition); try reflexivity.
  apply (body_parsed _ _ _ (reply no_condition)); reflexivity.
Defined.
